(** * The session manager's port plugin

    A model of [agent/session/plugins/port/port.go]: the plugin that relays
    bytes between the session data channel and a TCP port of the local host.

    The plugin is a record of fields that three goroutines touch: the one that
    runs [Execute], the write pump it spawns, and the host's calls of
    [InputStreamMessageHandler].  Every method is a function on the plugin and
    on the [World], the list of calls the plugin has made on its collaborators
    (the dialer, the TCP connections, the data channel, the IO handler of the
    result, the process).  What a collaborator answers is an argument of the
    function that calls it.  A method that blocks on the unbuffered channel
    [reconnectToPortErr] is split at the channel operation; the two halves meet
    in the [rendezvous] step of the interleaving semantics [step].

    Calls of the logger are not modelled. *)

From Stdlib Require Import ZArith NArith List String Bool Lia.
From Stdlib.Strings Require Import Byte.
Import ListNotations.
Local Open Scope string_scope.
Local Open Scope list_scope.

(** ** Values of the Go runtime and of the packages the plugin imports *)

(** A Go [error] value.  [io.EOF] is a distinguished value that the plugin
    compares by identity; every other error the model meets was made by
    [errors.New] or comes from the network stack with a message. *)
Inductive error : Type :=
| EOF
| errors_New (msg : string).

(** [err.Error()], which is also what the verb [%v] prints for an error. *)
Definition Error (e : error) : string :=
  match e with
  | EOF => "EOF"
  | errors_New msg => msg
  end.

(** The error every operation on a [net.Conn] returns once [Close] has been
    called on it. *)
Definition ErrNetClosing : error := errors_New "use of closed network connection".

(** What a call into a collaborator can do besides returning: panic. *)
Inductive Call (A : Type) : Type :=
| Returns (a : A)
| Panics (v : string).
Arguments Returns {A} a.
Arguments Panics {A} v.

Module appconfig.
(** Modelled from the spec: the exit code of a session that succeeded, declared
    in package [appconfig], which is not part of this file. *)
Definition SuccessExitCode : Z := 0.

(** Modelled from the spec: the exit code of a session that failed, declared in
    package [appconfig]; the spec asks for a nonzero code, and [execute]
    compares the code of the pump with the literal 1. *)
Definition ErrorExitCode : Z := 1.
End appconfig.

Module mgsConfig.
(** Modelled from the spec: the internal resume signal, declared in the session
    configuration package, which is not part of this file; it differs from both
    exit codes. *)
Definition ResumeReadExitCode : Z := 2.

(** Modelled from the spec: the type string that selects local port
    forwarding, declared in the session configuration package. *)
Definition LocalPortForwarding : string := "LocalPortForwarding".

(** Modelled from the spec: the fixed size of a stream chunk, declared in the
    session configuration package. *)
Definition StreamDataPayloadSize : nat := 1024.
End mgsConfig.

Module mgsContracts.
(** Modelled from the spec: the payload type of data (the spec's Data),
    declared in the session contracts package, which is not part of this file.
    A payload type is an unsigned 32-bit number. *)
Definition Output : N := 1.

(** Modelled from the spec: the payload type of a flag, declared in the session
    contracts package; it differs from [Output]. *)
Definition Flag : N := 10.

(** Modelled from the spec: the flag a client sends when its side of the TCP
    connection is closed, declared in the session contracts package.  A flag
    is an unsigned 32-bit number. *)
Definition DisconnectToPort : N := 1.

(** Modelled from the spec: the inbound message, declared in the session
    contracts package, with the three fields the plugin reads. *)
Record AgentMessage : Type := mkAgentMessage {
  PayloadType : N;
  SequenceNumber : Z;
  Payload : list byte
}.
End mgsContracts.

Module agentContracts.
(** Modelled from the spec: the statuses the result-reporting collaborator
    accepts, declared in the agent contracts package, which is not part of
    this file. *)
Inductive ResultStatus : Type :=
| ResultStatusSuccess
| ResultStatusFailed
| ResultStatusCancelled.
End agentContracts.

Import appconfig mgsConfig mgsContracts agentContracts.

(** ** Collaborators *)

(** The identity of a [net.Conn]. *)
Definition Conn : Type := nat.

(** The identity of a data channel. *)
Definition DataChannel : Type := nat.

(** The calls the plugin makes on its collaborators, in the order made. *)
Inductive Effect : Type :=
| DialCall (network address : string)
| ConnClose (c : Conn)
| ConnWrite (c : Conn) (b : list byte)
| SendStreamDataMessage (payloadType : N) (b : list byte)
| MarkAsShutdown
| MarkAsCancelled
| SetExitCode (n : Z)
| SetStatus (st : ResultStatus)
| SetOutput (o : string)
| os_Exit (code : Z).

Definition World : Type := list Effect.

Definition closes (c : Conn) (e : Effect) : bool :=
  match e with
  | ConnClose c' => Nat.eqb c c'
  | _ => false
  end.

(** A connection is closed once [Close] has been called on it. *)
Definition closed (c : Conn) (w : World) : bool := existsb (closes c) w.

(** The status last handed to [SetStatus], if any. *)
Fixpoint status_of (w : World) : option ResultStatus :=
  match w with
  | [] => None
  | e :: w' =>
      match status_of w' with
      | Some st => Some st
      | None => match e with SetStatus st => Some st | _ => None end
      end
  end.

(** Does the trace hold a call of the dialer? *)
Definition dials (e : Effect) : bool :=
  match e with
  | DialCall _ _ => true
  | _ => false
  end.

(** [net.Dial] returns a connection, or a nil connection and an error. *)
Inductive DialResult : Type :=
| Connected (c : Conn)
| Refused (e : error).

(** [Read] on a connection returns the bytes it put into the buffer, or an
    error. *)
Inductive ReadResult : Type :=
| ReadBytes (b : list byte)
| ReadError (e : error).

(** [c.Read(packet)]: [r] is what the peer makes of it.  A closed connection
    answers [ErrNetClosing]; an open one fills at most the buffer. *)
Definition conn_Read (c : Conn) (r : ReadResult) (w : World) : ReadResult :=
  if closed c w then ReadError ErrNetClosing
  else match r with
       | ReadBytes b => ReadBytes (firstn StreamDataPayloadSize b)
       | ReadError e => ReadError e
       end.

(** [c.Write(b)]: [wr] is what the peer makes of it.  A closed connection
    answers [ErrNetClosing]. *)
Definition conn_Write (c : Conn) (b : list byte) (wr : option error) (w : World)
  : World * option error :=
  (w ++ [ConnWrite c b], if closed c w then Some ErrNetClosing else wr).

(** ** The plugin *)

(** [PortParameters], the inputs of the plugin. *)
Record PortParameters : Type := mkPortParameters {
  PortNumber : string;
  Type_ : string
}.

(** What [jsonutil.Remarshal] makes of a configuration blob. *)
Inductive Remarshalled : Type :=
| Decoded (pp : PortParameters)
| DecodeError (e : error)
| DecodePanic (v : string).

(** A configuration blob ([config.Properties], an [interface{}]) is known by
    what the two packages that look into it make of it: [jsonutil.Remarshal]
    and the verb [%v] of [fmt]. *)
Record Properties : Type := mkProperties {
  Remarshal : Remarshalled;
  Sprint : string
}.

(** [PortPlugin].  The channel [reconnectToPortErr] has no buffer, so it holds
    no value: it is the [rendezvous] step below. *)
Record PortPlugin : Type := mkPortPlugin {
  tcpConn : option Conn;
  dataChannel : option DataChannel;
  portNumber : string;
  portType : string;
  reconnectToPort : bool
}.

Definition set_tcpConn (c : option Conn) (p : PortPlugin) : PortPlugin :=
  mkPortPlugin c (dataChannel p) (portNumber p) (portType p) (reconnectToPort p).

Definition set_dataChannel (d : option DataChannel) (p : PortPlugin) : PortPlugin :=
  mkPortPlugin (tcpConn p) d (portNumber p) (portType p) (reconnectToPort p).

Definition set_parameters (pp : PortParameters) (p : PortPlugin) : PortPlugin :=
  mkPortPlugin (tcpConn p) (dataChannel p) (PortNumber pp) (Type_ pp) (reconnectToPort p).

Definition set_reconnectToPort (b : bool) (p : PortPlugin) : PortPlugin :=
  mkPortPlugin (tcpConn p) (dataChannel p) (portNumber p) (portType p) b.

(** [NewPlugin]: every field has its zero value. *)
Definition NewPlugin : PortPlugin := mkPortPlugin None None "" "" false.

(** [stop] closes the connection and keeps the handle. *)
Definition stop (p : PortPlugin) (w : World) : World :=
  match tcpConn p with
  | Some c => w ++ [ConnClose c]
  | None => w
  end.

(** [startTCPConn] assigns whatever the dialer returns to [tcpConn], also the
    nil connection of a failed dial. *)
Definition startTCPConn (dial : DialResult) (p : PortPlugin) (w : World)
  : PortPlugin * World * option error :=
  let w' := w ++ [DialCall "tcp" ("localhost:" ++ portNumber p)%string] in
  match dial with
  | Connected c => (set_tcpConn (Some c) p, w', None)
  | Refused e =>
      (set_tcpConn None p, w',
       Some (errors_New ("Unable to connect to specified port: " ++ Error e)%string))
  end.

(** [initializeParameters]. *)
Definition initializeParameters (parameters : Properties) (p : PortPlugin)
  : Call (PortPlugin * option error) :=
  match Remarshal parameters with
  | DecodePanic v => Panics v
  | DecodeError e =>
      Returns (p, Some (errors_New
                         ("Unable to remarshal session properties. " ++ Error e)%string))
  | Decoded portParameters =>
      if String.eqb (PortNumber portParameters) "" then
        Returns (p, Some (errors_New
                           ("Port number is empty in session properties. "
                              ++ Sprint parameters)%string))
      else Returns (set_parameters portParameters p, None)
  end.

(** ** The inbound handler *)

(** [binary.Read(buf, binary.BigEndian, &flag)] into a zero [flag] of 32 bits:
    the first four bytes, most significant first; a shorter payload leaves the
    flag at zero (the error of [binary.Read] is dropped). *)
Definition getFlag (payload : list byte) : N :=
  match payload with
  | b0 :: b1 :: b2 :: b3 :: _ =>
      N.lor (N.shiftl (Byte.to_N b0) 24)
        (N.lor (N.shiftl (Byte.to_N b1) 16)
           (N.lor (N.shiftl (Byte.to_N b2) 8) (Byte.to_N b3)))
  | _ => 0%N
  end.

(** How far a call of the handler gets before it returns or blocks. *)
Inductive HandlerResult : Type :=
| Returned (err : option error)
| BlockedOnSend (err : option error)
| Panicked (v : string).

(** The write at the end of the [Output] case, and the [return nil] after the
    switch.  A nil [tcpConn] here is a nil dereference. *)
Definition InputStreamMessageHandler_write (msg : AgentMessage) (wr : option error)
    (p : PortPlugin) (w : World) : PortPlugin * World * HandlerResult :=
  match tcpConn p with
  | Some c =>
      let (w', err) := conn_Write c (Payload msg) wr w in
      (p, w', Returned err)
  | None => (p, w, Panicked "invalid memory address or nil pointer dereference")
  end.

(** [InputStreamMessageHandler], up to its return or up to the send of the
    dial's result on [reconnectToPortErr]. *)
Definition InputStreamMessageHandler (msg : AgentMessage) (dial : DialResult)
    (wr : option error) (p : PortPlugin) (w : World)
  : PortPlugin * World * HandlerResult :=
  match tcpConn p with
  | None => (p, w, Returned None)
  | Some _ =>
      if N.eqb (PayloadType msg) Output then
        if reconnectToPort p then
          let '(p', w', err) := startTCPConn dial p w in
          (p', w', BlockedOnSend err)
        else InputStreamMessageHandler_write msg wr p w
      else if N.eqb (PayloadType msg) Flag then
        if N.eqb (getFlag (Payload msg)) DisconnectToPort
        then (p, stop p w, Returned None)
        else (p, w, Returned None)
      else (p, w, Returned None)
  end.

(** [InputStreamMessageHandler] from the point where the pump has taken [err]
    off the channel. *)
Definition InputStreamMessageHandler_sent (err : option error) (msg : AgentMessage)
    (wr : option error) (p : PortPlugin) (w : World)
  : PortPlugin * World * HandlerResult :=
  match err with
  | Some e => (p, w, Returned (Some e))
  | None => InputStreamMessageHandler_write msg wr (set_reconnectToPort false p) w
  end.

(** ** The write pump and its handling of read errors *)

(** [handleSSHDPortError]. *)
Definition handleSSHDPortError (err : error) : Z :=
  match err with
  | EOF => SuccessExitCode
  | errors_New _ => ErrorExitCode
  end.

(** [handlePortError] up to the receive from [reconnectToPortErr]. *)
Definition handlePortError (p : PortPlugin) (w : World) : PortPlugin * World :=
  (set_reconnectToPort true p, stop p w).

(** [handlePortError] from the value received. *)
Definition handlePortError_received (err : option error) : Z :=
  match err with
  | Some _ => ErrorExitCode
  | None => ResumeReadExitCode
  end.

(** What the handling of a read error comes to: an exit code, or the receive
    on which [handlePortError] blocks. *)
Inductive Verdict : Type :=
| Code (exitCode : Z)
| Receive.

(** [handleTCPReadError]. *)
Definition handleTCPReadError (err : error) (p : PortPlugin) (w : World)
  : PortPlugin * World * Verdict :=
  if String.eqb (portType p) LocalPortForwarding then
    let (p', w') := handlePortError p w in (p', w', Receive)
  else (p, w, Code (handleSSHDPortError err)).

(** Where the pump goroutine is. *)
Inductive PumpState : Type :=
| NotStarted
| Reading
| Receiving
| Exited (errorCode : Z).

(** The test of the exit code in the loop of [writePump]. *)
Definition writePump_exit (exitCode : Z) : PumpState :=
  if Z.eqb exitCode ResumeReadExitCode then Reading else Exited exitCode.

(** One turn of the loop of [writePump].  A panic (a nil [tcpConn] or a nil
    [dataChannel]) is recovered by the deferred function; the named result
    [errorCode] then still has its zero value. *)
Definition writePump (r : ReadResult) (snd : option error) (p : PortPlugin) (w : World)
  : PortPlugin * World * PumpState :=
  match tcpConn p with
  | None => (p, w, Exited 0)
  | Some c =>
      match conn_Read c r w with
      | ReadError err =>
          match handleTCPReadError err p w with
          | (p', w', Receive) => (p', w', Receiving)
          | (p', w', Code exitCode) => (p', w', writePump_exit exitCode)
          end
      | ReadBytes b =>
          match dataChannel p with
          | None => (p, w, Exited 0)
          | Some _ =>
              let w' := w ++ [SendStreamDataMessage Output b] in
              match snd with
              | Some _ => (p, w', Exited ErrorExitCode)
              | None => (p, w', Reading)
              end
          end
      end
  end.

(** The pump from the value received in [handlePortError]. *)
Definition writePump_received (err : option error) : PumpState :=
  writePump_exit (handlePortError_received err).

(** ** The lifecycle *)

(** How [execute] leaves its first part. *)
Inductive Started : Type :=
| AtSelect
| Finished
| Panicking (v : string).

(** The three calls on the IO handler that report a failure. *)
Definition failed (err : error) (w : World) : World :=
  w ++ [SetExitCode ErrorExitCode; SetStatus ResultStatusFailed; SetOutput (Error err)].

(** [execute] up to the [select].  The deferred [stop] runs on each return and
    while a panic unwinds. *)
Definition execute (config : Properties) (dial : DialResult) (p : PortPlugin) (w : World)
  : PortPlugin * World * Started :=
  match initializeParameters config p with
  | Panics v => (p, stop p w, Panicking v)
  | Returns (p1, Some err) => (p1, stop p1 (failed err w), Finished)
  | Returns (p1, None) =>
      match startTCPConn dial p1 w with
      | (p2, w2, Some err) => (p2, stop p2 (failed err w2), Finished)
      | (p2, w2, None) => (p2, w2, AtSelect)
      end
  end.

(** The case the [select] of [execute] takes. *)
Inductive SelectCase : Type :=
| cancelled
| done (exitCode : Z).

(** [execute] from the [select], with the deferred [stop]. *)
Definition execute_select (c : SelectCase) (p : PortPlugin) (w : World) : World :=
  stop p
    match c with
    | cancelled => w ++ [SetExitCode 0; SetStatus ResultStatusSuccess]
    | done exitCode =>
        if Z.eqb exitCode 1
        then w ++ [SetExitCode ErrorExitCode; SetStatus ResultStatusFailed]
        else w ++ [SetExitCode SuccessExitCode; SetStatus ResultStatusSuccess]
    end.

(** Where a call of the handler is. *)
Inductive HandlerState : Type :=
| NoCall
| Sending (err : option error) (msg : AgentMessage)
| Sent (err : option error) (msg : AgentMessage).

(** Where the goroutine of [Execute] is. *)
Inductive Lifecycle : Type :=
| Idle
| Running
| Stopped
| ProcessExited (code : Z).

(** The plugin, its collaborators and the three activities. *)
Record System : Type := mkSystem {
  plugin : PortPlugin;
  world : World;
  pump : PumpState;
  handler : HandlerState;
  lifecycle : Lifecycle
}.

Definition NewSystem : System := mkSystem NewPlugin [] NotStarted NoCall Idle.

(** [Execute] up to its return, to the [select] of [execute], or to the
    [os.Exit(1)] of its deferred function.  [shutDown] and [canceled] are the
    answers of the cancel flag. *)
Definition Execute (shutDown canceled : bool) (config : Properties) (dc : DataChannel)
    (dial : DialResult) (s : System) : System :=
  let p := set_dataChannel (Some dc) (plugin s) in
  if shutDown then
    mkSystem p (world s ++ [MarkAsShutdown]) (pump s) (handler s) Stopped
  else if canceled then
    mkSystem p (world s ++ [MarkAsCancelled]) (pump s) (handler s) Stopped
  else
    match execute config dial p (world s) with
    | (p', w', AtSelect) => mkSystem p' w' Reading (handler s) Running
    | (p', w', Finished) => mkSystem p' w' (pump s) (handler s) Stopped
    | (p', w', Panicking _) =>
        mkSystem p' (w' ++ [os_Exit 1]) (pump s) (handler s) (ProcessExited 1)
    end.

(** The [select] of [execute] takes case [c]; [execute] and [Execute] return. *)
Definition finish (c : SelectCase) (s : System) : System :=
  mkSystem (plugin s) (execute_select c (plugin s) (world s)) (pump s) (handler s) Stopped.

(** One turn of the pump's loop. *)
Definition pumpTurn (r : ReadResult) (snd : option error) (s : System) : System :=
  let '(p, w, st) := writePump r snd (plugin s) (world s) in
  mkSystem p w st (handler s) (lifecycle s).

(** The host calls the handler with [msg]. *)
Definition deliver (msg : AgentMessage) (dial : DialResult) (wr : option error)
    (s : System) : System * HandlerResult :=
  let '(p, w, r) := InputStreamMessageHandler msg dial wr (plugin s) (world s) in
  (mkSystem p w (pump s)
     match r with BlockedOnSend err => Sending err msg | _ => NoCall end
     (lifecycle s), r).

(** The pump receives what the handler sends. *)
Definition rendezvous (err : option error) (msg : AgentMessage) (s : System) : System :=
  mkSystem (plugin s) (world s) (writePump_received err) (Sent err msg) (lifecycle s).

(** The handler runs on from its send to its return. *)
Definition complete (err : option error) (msg : AgentMessage) (wr : option error)
    (s : System) : System * HandlerResult :=
  let '(p, w, r) := InputStreamMessageHandler_sent err msg wr (plugin s) (world s) in
  (mkSystem p w (pump s) NoCall (lifecycle s), r).

(** The process runs until [os.Exit]. *)
Definition alive (s : System) : Prop :=
  match lifecycle s with
  | ProcessExited _ => False
  | _ => True
  end.

(** The interleavings of the three activities.  The host calls the handler
    one call at a time; the select takes [cancelled] when the cancel flag has
    been set, and [done] when the pump has returned. *)
Inductive step : System -> System -> Prop :=
| step_Execute shutDown canceled config dc dial s :
    lifecycle s = Idle ->
    step s (Execute shutDown canceled config dc dial s)
| step_pump r snd s :
    alive s -> pump s = Reading ->
    step s (pumpTurn r snd s)
| step_deliver msg dial wr s :
    alive s -> handler s = NoCall ->
    step s (fst (deliver msg dial wr s))
| step_rendezvous err msg s :
    alive s -> handler s = Sending err msg -> pump s = Receiving ->
    step s (rendezvous err msg s)
| step_complete err msg wr s :
    alive s -> handler s = Sent err msg ->
    step s (fst (complete err msg wr s))
| step_cancelled s :
    lifecycle s = Running ->
    step s (finish cancelled s)
| step_done exitCode s :
    lifecycle s = Running -> pump s = Exited exitCode ->
    step s (finish (done exitCode) s).

(** The states of a session. *)
Inductive reachable : System -> Prop :=
| reachable_New : reachable NewSystem
| reachable_step s s' : reachable s -> step s s' -> reachable s'.

(** What holds of every state of a session (see [reachable_Inv]):
    - before [Execute] nothing has happened;
    - after [os.Exit] no reconnection is pending;
    - between two calls of the handler a pending reconnection means that the
      handle, when there is one, is that of a closed connection and that the
      pump waits for the handler; a handler that sends waits for a pump that
      receives, and the error it sends goes with a nil handle. *)
Definition Inv (s : System) : Prop :=
  (lifecycle s = Idle ->
   tcpConn (plugin s) = None /\ reconnectToPort (plugin s) = false
   /\ pump s = NotStarted /\ handler s = NoCall)
  /\ (alive s \/ reconnectToPort (plugin s) = false)
  /\ match handler s with
     | NoCall =>
         reconnectToPort (plugin s) = true ->
         match tcpConn (plugin s) with
         | Some c => closed c (world s) = true /\ pump s = Receiving
         | None => True
         end
     | Sending err _ =>
         pump s = Receiving /\ (err <> None -> tcpConn (plugin s) = None)
     | Sent err _ => err <> None -> tcpConn (plugin s) = None
     end.

(** ** Sessions used as examples *)

Module Examples.

(** A blob asking for local port forwarding to port 8080. *)
Definition localForward : Properties :=
  mkProperties (Decoded (mkPortParameters "8080" LocalPortForwarding))
    "map[portNumber:8080 type:LocalPortForwarding]".

(** A blob without a type. *)
Definition serviceForward : Properties :=
  mkProperties (Decoded (mkPortParameters "22" "")) "map[portNumber:22]".

(** A blob without a port number. *)
Definition noPort : Properties :=
  mkProperties (Decoded (mkPortParameters "" LocalPortForwarding))
    "map[type:LocalPortForwarding]".

(** A blob on which the decoder panics. *)
Definition panicking : Properties :=
  mkProperties (DecodePanic "reflect: call of reflect.Value.Type on zero Value") "".

Definition dataMsg : AgentMessage := mkAgentMessage Output 5 [x68; x69].

Definition disconnectMsg : AgentMessage :=
  mkAgentMessage Flag 6 [x00; x00; x00; x01].

(** The session runs: connection 0 is open, the pump reads. *)
Definition running : System :=
  Execute false false localForward 7 (Connected 0) NewSystem.

(** The pump has met a read error and waits for the reconnection. *)
Definition lost : System := pumpTurn (ReadError EOF) None running.

(** A data message has come and the dial has given connection 1; the handler
    is about to hand the result to the pump. *)
Definition redialled : System := fst (deliver dataMsg (Connected 1) None lost).

(** The same with a dial that fails. *)
Definition refused : System :=
  fst (deliver dataMsg (Refused (errors_New "connection refused")) None lost).

(** The session without reconnection runs on connection 0. *)
Definition serving : System :=
  Execute false false serviceForward 7 (Connected 0) NewSystem.

(** The decoder has panicked under [Execute]. *)
Definition exited : System :=
  Execute false false panicking 7 (Connected 0) NewSystem.

(** A plugin that holds the open connection 0. *)
Definition connected : PortPlugin := mkPortPlugin (Some 0) (Some 7) "8080" "" false.

End Examples.

(** ** Observations of a session *)

(** The chunks handed to the data channel, in the order sent. *)
Fixpoint sent (w : World) : list (list byte) :=
  match w with
  | [] => []
  | SendStreamDataMessage _ b :: w' => b :: sent w'
  | _ :: w' => sent w'
  end.

(** The calls that tell the IO handler how the session ended. *)
Definition reports (e : Effect) : bool :=
  match e with
  | MarkAsShutdown | MarkAsCancelled | SetStatus _ => true
  | _ => false
  end.

(** A call of the dialer, if it is one, goes to [port] on the loopback. *)
Definition dials_loopback (port : string) (e : Effect) : Prop :=
  match e with
  | DialCall network address =>
      network = "tcp" /\ address = ("localhost:" ++ port)%string
  | _ => True
  end.

(** The loop of [writePump]: turn after turn, as long as the pump reads.  Each
    turn has what the connection and the data channel answer in it. *)
Fixpoint pumpTurns (turns : list (ReadResult * option error)) (s : System) : System :=
  match turns with
  | [] => s
  | (r, snd) :: turns' =>
      match pump s with
      | Reading => pumpTurns turns' (pumpTurn r snd s)
      | _ => s
      end
  end.

(** Runs of the session. *)
Inductive steps : System -> System -> Prop :=
| steps_refl s : steps s s
| steps_step s s' s'' : steps s s' -> step s' s'' -> steps s s''.

(** More of what holds of every state of a session (see [reachable_Sound]):
    - before [Execute] no collaborator has been called;
    - once [Execute] has been called the data channel is set;
    - a pump that reads has a connection handle, and so has a handler that
      hands nil to the pump;
    - only a live process has a pump or a call of the handler under way;
    - the pump returns the error code, or the success code when the type is
      not that of local port forwarding;
    - every dial went to the port of the plugin on the loopback. *)
Definition Sound (s : System) : Prop :=
  (lifecycle s = Idle -> world s = [] /\ pump s = NotStarted)
  /\ (lifecycle s <> Idle -> dataChannel (plugin s) <> None)
  /\ (pump s = Reading -> tcpConn (plugin s) <> None)
  /\ match handler s with
     | Sending None _ | Sent None _ => tcpConn (plugin s) <> None
     | _ => True
     end
  /\ (pump s = NotStarted \/ lifecycle s = Running \/ lifecycle s = Stopped)
  /\ (handler s = NoCall \/ alive s)
  /\ match pump s with
     | Exited code =>
         code = ErrorExitCode
         \/ (code = SuccessExitCode /\ portType (plugin s) <> LocalPortForwarding)
     | _ => True
     end
  /\ Forall (dials_loopback (portNumber (plugin s))) (world s).

(** The pump waits for a reconnection that no data message will start. *)
Definition stuck (s : System) : Prop :=
  pump s = Receiving /\ reconnectToPort (plugin s) = false
  /\ handler s = NoCall /\ lifecycle s <> Idle.

(** While the pump waits for a reconnection, the connection whose handle the
    plugin has is closed, until the handler has dialled again (see
    [reachable_Waiting]). *)
Definition Waiting (s : System) : Prop :=
  pump s = Receiving ->
  match handler s with
  | Sending _ _ => True
  | _ =>
      match tcpConn (plugin s) with
      | Some c => closed c (world s) = true
      | None => True
      end
  end.

Module Scenarios.

(** The pump has taken the result of the dial and reads again; the handler
    has not yet cleared [reconnectToPort]. *)
Definition resumed : System :=
  rendezvous None Examples.dataMsg Examples.redialled.

(** The read on the new connection fails before the handler runs on. *)
Definition lostAgain : System :=
  pumpTurn (ReadError (errors_New "connection reset by peer")) None resumed.

(** The handler runs on: it clears [reconnectToPort] and writes. *)
Definition wedged : System :=
  fst (complete None Examples.dataMsg None lostAgain).

(** The session is cancelled while the pump waits for a reconnection. *)
Definition cancelledWhileLost : System := finish cancelled Examples.lost.

(** The dial of a reconnection has failed and the handler has returned. *)
Definition gaveUp : System :=
  fst (complete
         (Some (errors_New "Unable to connect to specified port: connection refused"))
         Examples.dataMsg None
         (rendezvous
            (Some (errors_New "Unable to connect to specified port: connection refused"))
            Examples.dataMsg Examples.refused)).

(** The client has closed its side: the flag has reached the handler. *)
Definition disconnected : System :=
  fst (deliver Examples.disconnectMsg (Connected 1) None Examples.running).

(** The same in a session without reconnection. *)
Definition disconnectedService : System :=
  fst (deliver Examples.disconnectMsg (Connected 1) None Examples.serving).

End Scenarios.

(** ** Connections and the trace *)

Lemma closed_app (c : Conn) (w w' : World) :
  closed c (w ++ w') = closed c w || closed c w'.
Proof. unfold closed. apply existsb_app. Qed.

Lemma closed_ConnClose (c : Conn) (w : World) : closed c (w ++ [ConnClose c]) = true.
Proof.
  rewrite closed_app. cbn. rewrite Nat.eqb_refl. now rewrite !orb_true_r.
Qed.

Lemma closed_stop (p : PortPlugin) (w : World) (c : Conn) :
  tcpConn p = Some c -> closed c (stop p w) = true.
Proof. intros H. unfold stop. rewrite H. apply closed_ConnClose. Qed.

Lemma closed_stop_mono (p : PortPlugin) (w : World) (c : Conn) :
  closed c w = true -> closed c (stop p w) = true.
Proof.
  intros H. unfold stop. destruct (tcpConn p); [|exact H].
  rewrite closed_app, H. reflexivity.
Qed.

Lemma status_of_app (w w' : World) :
  status_of (w ++ w') =
  match status_of w' with
  | Some st => Some st
  | None => status_of w
  end.
Proof.
  induction w as [|e w IH]; cbn.
  - now destruct (status_of w').
  - rewrite IH. now destruct (status_of w').
Qed.

Lemma status_of_stop (p : PortPlugin) (w : World) : status_of (stop p w) = status_of w.
Proof.
  unfold stop. destruct (tcpConn p); [|reflexivity].
  now rewrite status_of_app.
Qed.

(** ** The lifecycle controller *)

(** C1, as the code has it: when the select of [execute] takes the
    cancellation, which it can in every running state whatever the pump does,
    the session is finalized with exit code 0 and status Success (not
    Cancelled), and the deferred [stop] closes the connection held. *)
Theorem cancelled_finishes_with_Success (s : System) :
  lifecycle s = Running ->
  step s (finish cancelled s)
  /\ world (finish cancelled s)
     = stop (plugin s) (world s ++ [SetExitCode 0; SetStatus ResultStatusSuccess])
  /\ status_of (world (finish cancelled s)) = Some ResultStatusSuccess
  /\ lifecycle (finish cancelled s) = Stopped
  /\ pump (finish cancelled s) = pump s
  /\ match tcpConn (plugin s) with
     | Some c => closed c (world (finish cancelled s)) = true
     | None => True
     end.
Proof.
  intros Hrun. split; [now constructor|].
  split; [reflexivity|]. split.
  - cbn. unfold execute_select. rewrite status_of_stop, status_of_app. reflexivity.
  - split; [reflexivity|]. split; [reflexivity|].
    destruct (tcpConn (plugin s)) as [c|] eqn:Hc; [|exact I].
    cbn. unfold execute_select. now apply closed_stop.
Qed.

Lemma cancelled_finishes_with_Success_witness :
  status_of (world (finish cancelled Examples.running)) = Some ResultStatusSuccess.
Proof.
  apply (cancelled_finishes_with_Success Examples.running). reflexivity.
Defined.

(** C1 as the spec words it fails: the status of a session cancelled while it
    runs is not Cancelled. *)
Lemma cancelled_status_is_not_Cancelled :
  lifecycle Examples.running = Running
  /\ step Examples.running (finish cancelled Examples.running)
  /\ world (finish cancelled Examples.running)
     = [DialCall "tcp" "localhost:8080"; SetExitCode 0;
        SetStatus ResultStatusSuccess; ConnClose 0]
  /\ status_of (world (finish cancelled Examples.running)) <> Some ResultStatusCancelled.
Proof.
  split; [reflexivity|]. split; [now constructor|]. split; [reflexivity|].
  vm_compute. discriminate.
Qed.

(** Nothing happens in a process that has exited. *)
Lemma ProcessExited_final (s s' : System) (code : Z) :
  lifecycle s = ProcessExited code -> ~ step s s'.
Proof.
  intros Hx Hstep.
  inversion Hstep; subst; unfold alive in *; rewrite Hx in *;
    try contradiction; discriminate.
Qed.

(** A panic in the first part of [execute] comes from the decoder and finds
    the world as it was, but for the deferred [stop]. *)
Lemma execute_Panicking (config : Properties) (dial : DialResult) (p p' : PortPlugin)
    (w w' : World) (v : string) :
  execute config dial p w = (p', w', Panicking v) ->
  Remarshal config = DecodePanic v /\ p' = p /\ w' = stop p w.
Proof.
  unfold execute, initializeParameters.
  destruct (Remarshal config) as [pp|e|v'].
  - destruct (String.eqb (PortNumber pp) ""); [discriminate|].
    destruct dial; cbn; discriminate.
  - discriminate.
  - intros [= <- <- <-]. auto.
Qed.

(** C2, as the code has it: a panic that reaches the deferred function of
    [Execute] is answered by [os.Exit(1)]: the host process ends there, and the
    recovery reports no status. *)
Theorem panic_exits_the_process (config : Properties) (dc : DataChannel)
    (dial : DialResult) (s : System) (p' : PortPlugin) (w' : World) (v : string) :
  execute config dial (set_dataChannel (Some dc) (plugin s)) (world s)
  = (p', w', Panicking v) ->
  let s' := Execute false false config dc dial s in
  s' = mkSystem p' (w' ++ [os_Exit 1]) (pump s) (handler s) (ProcessExited 1)
  /\ status_of (world s') = status_of (world s)
  /\ forall s'', ~ step s' s''.
Proof.
  intros Hex s'. subst s'. unfold Execute. rewrite Hex.
  split; [reflexivity|]. split.
  - apply execute_Panicking in Hex. destruct Hex as (_ & _ & ->).
    cbn. rewrite status_of_app. cbn. apply status_of_stop.
  - intros s''. now apply ProcessExited_final with (code := 1%Z).
Qed.

Lemma panic_exits_the_process_witness :
  Execute false false Examples.panicking 7 (Connected 0) NewSystem
  = mkSystem (set_dataChannel (Some 7) NewPlugin) [os_Exit 1] NotStarted NoCall
      (ProcessExited 1).
Proof.
  apply (panic_exits_the_process Examples.panicking 7 (Connected 0) NewSystem
           (set_dataChannel (Some 7) NewPlugin) []
           "reflect: call of reflect.Value.Type on zero Value").
  reflexivity.
Defined.

(** C2 as the spec words it fails: a decoder that panics ends the process with
    exit code 1, and no Failed status has been reported. *)
Lemma panic_is_not_reported_as_Failed :
  step NewSystem Examples.exited
  /\ lifecycle Examples.exited = ProcessExited 1
  /\ In (os_Exit 1) (world Examples.exited)
  /\ status_of (world Examples.exited) <> Some ResultStatusFailed.
Proof.
  split; [now constructor|]. split; [reflexivity|].
  split; [cbn; auto|]. vm_compute. discriminate.
Qed.

(** ** The inbound handler *)

(** C8: without a connection handle the handler returns nil whatever the
    message is, and neither the plugin nor the world changes. *)
Theorem no_connection_no_effect (msg : AgentMessage) (dial : DialResult)
    (wr : option error) (s : System) :
  tcpConn (plugin s) = None ->
  handler s = NoCall ->
  InputStreamMessageHandler msg dial wr (plugin s) (world s)
  = (plugin s, world s, Returned None)
  /\ deliver msg dial wr s = (s, Returned None).
Proof.
  intros Hnil Hidle.
  assert (H : InputStreamMessageHandler msg dial wr (plugin s) (world s)
              = (plugin s, world s, Returned None)).
  { unfold InputStreamMessageHandler. now rewrite Hnil. }
  split; [exact H|].
  unfold deliver. rewrite H. destruct s; cbn in *. now subst.
Qed.

Lemma no_connection_no_effect_witness :
  deliver Examples.dataMsg (Connected 3) None NewSystem = (NewSystem, Returned None).
Proof.
  apply (no_connection_no_effect Examples.dataMsg (Connected 3) None NewSystem);
    reflexivity.
Defined.

(** A write on a connection that has been closed. *)
Lemma write_on_closed (msg : AgentMessage) (wr : option error) (p : PortPlugin)
    (w : World) (c : Conn) :
  tcpConn p = Some c -> closed c w = true ->
  InputStreamMessageHandler_write msg wr p w
  = (p, w ++ [ConnWrite c (Payload msg)], Returned (Some ErrNetClosing)).
Proof.
  intros Hc Hcl. unfold InputStreamMessageHandler_write, conn_Write.
  now rewrite Hc, Hcl.
Qed.

(** C3, as the code has it: the flag DisconnectToPort closes the connection,
    keeps the handle and does not touch [reconnectToPort]; a data message
    that comes after it, with no reconnection pending, is not dropped: the
    handler writes it to the closed connection and returns the error of that
    write. *)
Theorem DisconnectToPort_closes_and_keeps_handle (msg : AgentMessage)
    (dial : DialResult) (wr : option error) (p : PortPlugin) (w : World) (c : Conn) :
  tcpConn p = Some c ->
  PayloadType msg = Flag ->
  getFlag (Payload msg) = DisconnectToPort ->
  InputStreamMessageHandler msg dial wr p w = (p, w ++ [ConnClose c], Returned None)
  /\ closed c (w ++ [ConnClose c]) = true
  /\ forall (msg' : AgentMessage) (dial' : DialResult) (wr' : option error) (w' : World),
      PayloadType msg' = Output ->
      reconnectToPort p = false ->
      closed c w' = true ->
      InputStreamMessageHandler msg' dial' wr' p w'
      = (p, w' ++ [ConnWrite c (Payload msg')], Returned (Some ErrNetClosing)).
Proof.
  intros Hc Hflag Hdis. split; [|split].
  - unfold InputStreamMessageHandler, stop. rewrite Hc, Hflag, Hdis. reflexivity.
  - apply closed_ConnClose.
  - intros msg' dial' wr' w' Hout Hrec Hcl.
    unfold InputStreamMessageHandler. rewrite Hc, Hout, Hrec. cbn.
    now apply write_on_closed.
Qed.

Lemma DisconnectToPort_closes_and_keeps_handle_witness :
  InputStreamMessageHandler Examples.disconnectMsg (Connected 1) None
    Examples.connected []
  = (Examples.connected, [ConnClose 0], Returned None).
Proof.
  apply (DisconnectToPort_closes_and_keeps_handle Examples.disconnectMsg
           (Connected 1) None Examples.connected [] 0); reflexivity.
Defined.

(** C3 as the spec words it fails: the data message that follows the flag is
    written to the closed connection, and the handler returns an error. *)
Lemma data_after_DisconnectToPort_is_not_dropped :
  closed 0 [] = false
  /\ InputStreamMessageHandler Examples.disconnectMsg (Connected 1) None
       Examples.connected []
     = (Examples.connected, [ConnClose 0], Returned None)
  /\ InputStreamMessageHandler Examples.dataMsg (Connected 1) None
       Examples.connected [ConnClose 0]
     = (Examples.connected, [ConnClose 0; ConnWrite 0 [x68; x69]],
        Returned (Some ErrNetClosing))
  /\ InputStreamMessageHandler Examples.dataMsg (Connected 1) None
       Examples.connected [ConnClose 0]
     <> (Examples.connected, [ConnClose 0], Returned None).
Proof.
  repeat split; try reflexivity. vm_compute. discriminate.
Qed.

(** ** Parameters *)

(** C9: a blob that decodes to a port number that is not empty initializes the
    plugin, whatever its type; a blob that does not decode, or decodes to an
    empty port number, gives an error and leaves the plugin as it was. *)
Theorem initializeParameters_spec (parameters : Properties) (p : PortPlugin) :
  (forall pp : PortParameters,
      Remarshal parameters = Decoded pp -> PortNumber pp <> "" ->
      initializeParameters parameters p = Returns (set_parameters pp p, None)
      /\ portNumber (set_parameters pp p) = PortNumber pp
      /\ portType (set_parameters pp p) = Type_ pp)
  /\ ((exists e, Remarshal parameters = DecodeError e)
      \/ (exists pp, Remarshal parameters = Decoded pp /\ PortNumber pp = "") ->
      exists err, initializeParameters parameters p = Returns (p, Some err)).
Proof.
  unfold initializeParameters. split.
  - intros pp -> Hport.
    destruct (String.eqb_spec (PortNumber pp) ""); [contradiction|].
    repeat split.
  - intros [[e ->]|[pp [-> Hport]]].
    + eexists. reflexivity.
    + rewrite Hport. cbn. eexists. reflexivity.
Qed.

Lemma initializeParameters_spec_witness :
  initializeParameters Examples.localForward NewPlugin
  = Returns (set_parameters (mkPortParameters "8080" LocalPortForwarding) NewPlugin, None)
  /\ exists err, initializeParameters Examples.noPort NewPlugin
                 = Returns (NewPlugin, Some err).
Proof.
  split.
  - apply (initializeParameters_spec Examples.localForward NewPlugin);
      [reflexivity | discriminate].
  - apply (initializeParameters_spec Examples.noPort NewPlugin).
    right. eexists. split; reflexivity.
Defined.

(** ** [Execute] under a cancel flag that is already set *)

(** C10: when the cancel flag reports shutdown, or else cancellation, as
    [Execute] is called, the plugin stores the data channel, marks the output
    as shutdown, respectively as cancelled, and returns: the parameters are
    not read, nothing is dialled, the pump is not started. *)
Theorem Execute_flag_set (shutDown canceled : bool) (config : Properties)
    (dc : DataChannel) (dial : DialResult) (s : System) :
  shutDown || canceled = true ->
  let s' := Execute shutDown canceled config dc dial s in
  s' = mkSystem (set_dataChannel (Some dc) (plugin s))
         (world s ++ [if shutDown then MarkAsShutdown else MarkAsCancelled])
         (pump s) (handler s) Stopped
  /\ portNumber (plugin s') = portNumber (plugin s)
  /\ portType (plugin s') = portType (plugin s)
  /\ tcpConn (plugin s') = tcpConn (plugin s)
  /\ existsb dials (world s') = existsb dials (world s)
  /\ pump s' = pump s.
Proof.
  intros Hflag s'. subst s'. unfold Execute.
  destruct shutDown; [|cbn in Hflag; subst canceled]; cbn;
    rewrite existsb_app; cbn; rewrite !orb_false_r; repeat split.
Qed.

Lemma Execute_flag_set_witness :
  Execute false true Examples.localForward 7 (Connected 0) NewSystem
  = mkSystem (set_dataChannel (Some 7) NewPlugin) [MarkAsCancelled] NotStarted NoCall
      Stopped.
Proof.
  apply (Execute_flag_set false true Examples.localForward 7 (Connected 0) NewSystem).
  reflexivity.
Defined.

(** ** Read errors without reconnection *)

(** C7: under every type string other than that of local port forwarding, the
    empty one too, a read that ends the stream makes the pump return the
    success code and every other read error the error code, and when the
    select of [execute] takes that code the session ends with it: Success
    with exit code 0, respectively Failed with exit code 1. *)
Theorem service_forward_read_error (s : System) (c : Conn) (r : ReadResult)
    (snd : option error) (err : error) :
  portType (plugin s) <> LocalPortForwarding ->
  tcpConn (plugin s) = Some c ->
  conn_Read c r (world s) = ReadError err ->
  let exitCode := match err with EOF => SuccessExitCode | _ => ErrorExitCode end in
  let st := match err with EOF => ResultStatusSuccess | _ => ResultStatusFailed end in
  handleTCPReadError err (plugin s) (world s) = (plugin s, world s, Code exitCode)
  /\ pumpTurn r snd s
     = mkSystem (plugin s) (world s) (Exited exitCode) (handler s) (lifecycle s)
  /\ world (finish (done exitCode) (pumpTurn r snd s))
     = stop (plugin s) (world s ++ [SetExitCode exitCode; SetStatus st])
  /\ status_of (world (finish (done exitCode) (pumpTurn r snd s))) = Some st
  /\ (lifecycle s = Running -> pump s = Reading ->
      step s (pumpTurn r snd s)
      /\ step (pumpTurn r snd s) (finish (done exitCode) (pumpTurn r snd s))).
Proof.
  intros Htype Hc Hread exitCode st.
  assert (Hcls : handleTCPReadError err (plugin s) (world s)
                 = (plugin s, world s, Code exitCode)).
  { unfold handleTCPReadError.
    destruct (String.eqb_spec (portType (plugin s)) LocalPortForwarding);
      [contradiction|].
    subst exitCode. now destruct err. }
  assert (Hturn : pumpTurn r snd s
                  = mkSystem (plugin s) (world s) (Exited exitCode) (handler s)
                      (lifecycle s)).
  { unfold pumpTurn, writePump. rewrite Hc, Hread, Hcls.
    subst exitCode. now destruct err. }
  split; [exact Hcls|]. split; [exact Hturn|].
  split; [|split].
  - rewrite Hturn. cbn. unfold execute_select. subst exitCode st. now destruct err.
  - rewrite Hturn. cbn. unfold execute_select. rewrite status_of_stop.
    subst exitCode st. destruct err; cbn; now rewrite status_of_app.
  - intros Hrun Hpump. split.
    + apply step_pump; [unfold alive; now rewrite Hrun | exact Hpump].
    + apply step_done; rewrite Hturn; [exact Hrun | reflexivity].
Qed.

Lemma service_forward_read_error_witness :
  status_of (world (finish (done SuccessExitCode)
                      (pumpTurn (ReadError EOF) None Examples.serving)))
  = Some ResultStatusSuccess.
Proof.
  apply (service_forward_read_error Examples.serving 0 (ReadError EOF) None EOF).
  - discriminate.
  - reflexivity.
  - reflexivity.
Defined.

(** ** The states of a session *)

Lemma closed_snoc_mono (c : Conn) (w : World) (e : Effect) :
  closed c w = true -> closed c (w ++ [e]) = true.
Proof. intros H. now rewrite closed_app, H. Qed.

Lemma Execute_Inv (shutDown canceled : bool) (config : Properties) (dc : DataChannel)
    (dial : DialResult) (s : System) :
  Inv s -> lifecycle s = Idle -> Inv (Execute shutDown canceled config dc dial s).
Proof.
  intros (Hidle & _ & _) Hl. destruct (Hidle Hl) as (Hc & Hr & Hp & Hh).
  assert (Hgoal : forall s', lifecycle s' <> Idle ->
                             reconnectToPort (plugin s') = false ->
                             handler s' = NoCall -> Inv s').
  { intros s' H1 H2 H3. unfold Inv. rewrite H3, H2.
    split; [contradiction|]. split; [now right|discriminate]. }
  unfold Execute, execute, initializeParameters, startTCPConn.
  destruct shutDown; [now apply Hgoal|].
  destruct canceled; [now apply Hgoal|].
  destruct (Remarshal config) as [pp|e|v]; cbn.
  - destruct (String.eqb (PortNumber pp) ""); [now apply Hgoal|].
    destruct dial; now apply Hgoal.
  - now apply Hgoal.
  - now apply Hgoal.
Qed.

Lemma pumpTurn_Inv (r : ReadResult) (snd : option error) (s : System) :
  Inv s -> alive s -> pump s = Reading -> Inv (pumpTurn r snd s).
Proof.
  intros (Hidle & _ & Hh) Halive Hp.
  assert (Hl : lifecycle s <> Idle).
  { intros Hl. destruct (Hidle Hl) as (_ & _ & Hp' & _). congruence. }
  destruct s as [p w pu h l]; cbn in *. subst pu.
  unfold pumpTurn, writePump, handleTCPReadError, handlePortError; cbn.
  destruct (tcpConn p) as [c|] eqn:Hc.
  2:{ unfold Inv; cbn. rewrite Hc. split; [contradiction|]. split; [now left|].
      destruct h; auto. destruct Hh; discriminate. }
  destruct (conn_Read c r w) as [b|err].
  - assert (Hsame : forall st w', (forall c', closed c' w = true -> closed c' w' = true) ->
                                  st <> Receiving ->
                                  Inv (mkSystem p w' st h l)).
    { intros st w' Hmono Hst. unfold Inv; cbn. rewrite Hc.
      split; [contradiction|]. split; [now left|].
      destruct h; auto.
      - intros Hr. destruct (Hh Hr); discriminate.
      - destruct Hh; discriminate. }
    destruct (dataChannel p); [|apply Hsame; [auto|discriminate]].
    destruct snd; apply Hsame; try discriminate; intros c'; apply closed_snoc_mono.
  - destruct (String.eqb (portType p) LocalPortForwarding); cbn.
    + unfold Inv; cbn. rewrite Hc.
      split; [contradiction|]. split; [now left|].
      destruct h.
      * intros _. split; [now apply closed_stop|reflexivity].
      * destruct Hh; discriminate.
      * exact Hh.
    + unfold Inv; cbn. rewrite Hc.
      split; [contradiction|]. split; [now left|].
      destruct h; auto.
      * intros Hr. destruct (Hh Hr); discriminate.
      * destruct Hh; discriminate.
Qed.

Lemma deliver_Inv (msg : AgentMessage) (dial : DialResult) (wr : option error)
    (s : System) :
  Inv s -> alive s -> handler s = NoCall -> Inv (fst (deliver msg dial wr s)).
Proof.
  intros (Hidle & _ & Hh) Halive Hn.
  destruct s as [p w pu h l]; cbn in *. subst h.
  assert (Hsame : forall w', (forall c', closed c' w = true -> closed c' w' = true) ->
                             Inv (mkSystem p w' pu NoCall l)).
  { intros w' Hmono. unfold Inv; cbn.
    split; [exact Hidle|]. split; [now left|].
    intros Hr. specialize (Hh Hr). destruct (tcpConn p); [|exact I].
    destruct Hh as [Hcl Hp]. split; [now apply Hmono|exact Hp]. }
  unfold deliver, InputStreamMessageHandler.
  cbn [plugin world pump handler lifecycle].
  destruct (tcpConn p) as [c|] eqn:Hc; [|now apply Hsame].
  assert (Hl : l <> Idle).
  { intros Hl. destruct (Hidle Hl) as (Hc' & _). congruence. }
  destruct (N.eqb (PayloadType msg) Output).
  - destruct (reconnectToPort p) eqn:Hr.
    + specialize (Hh eq_refl). destruct Hh as [_ Hpu].
      unfold startTCPConn. destruct dial; cbn; unfold Inv; cbn.
      * split; [contradiction|]. split; [now left|]. split; [exact Hpu|congruence].
      * split; [contradiction|]. split; [now left|]. split; [exact Hpu|reflexivity].
    + unfold InputStreamMessageHandler_write, conn_Write. rewrite Hc. cbn.
      apply Hsame. intros c'. apply closed_snoc_mono.
  - destruct (N.eqb (PayloadType msg) Flag); [|now apply Hsame].
    destruct (N.eqb (getFlag (Payload msg)) DisconnectToPort); cbn; [|now apply Hsame].
    apply Hsame. intros c'. apply closed_stop_mono.
Qed.

Lemma rendezvous_Inv (err : option error) (msg : AgentMessage) (s : System) :
  Inv s -> alive s -> handler s = Sending err msg -> Inv (rendezvous err msg s).
Proof.
  intros (Hidle & _ & Hh) Halive Hs. rewrite Hs in Hh. destruct Hh as [_ Hh].
  unfold Inv, rendezvous; cbn.
  split; [|split; [now left|exact Hh]].
  intros Hl. destruct (Hidle Hl) as (_ & _ & _ & Hn). congruence.
Qed.

Lemma complete_Inv (err : option error) (msg : AgentMessage) (wr : option error)
    (s : System) :
  Inv s -> alive s -> handler s = Sent err msg -> Inv (fst (complete err msg wr s)).
Proof.
  intros (Hidle & _ & Hh) Halive Hs. rewrite Hs in Hh.
  assert (Hl : lifecycle s <> Idle).
  { intros Hl. destruct (Hidle Hl) as (_ & _ & _ & Hn). congruence. }
  unfold complete, InputStreamMessageHandler_sent.
  destruct err as [e|].
  - cbn. unfold Inv; cbn. split; [contradiction|]. split; [now left|].
    intros _. now rewrite Hh.
  - unfold InputStreamMessageHandler_write, conn_Write. cbn.
    destruct (tcpConn (plugin s)); cbn; unfold Inv; cbn;
      (split; [contradiction|]; split; [now left|discriminate]).
Qed.

Lemma finish_Inv (c : SelectCase) (s : System) :
  Inv s -> lifecycle s = Running -> Inv (finish c s).
Proof.
  intros (Hidle & _ & Hh) Hl.
  unfold Inv, finish; cbn [plugin world pump handler lifecycle].
  split; [discriminate|]. split; [now left|].
  destruct (handler s); auto.
  intros Hr. specialize (Hh Hr). destruct (tcpConn (plugin s)) as [cn|]; [|exact I].
  destruct Hh as [Hcl Hp]. split; [|exact Hp].
  unfold execute_select. apply closed_stop_mono.
  destruct c as [|exitCode]; [|destruct (Z.eqb exitCode 1)];
    now rewrite closed_app, Hcl.
Qed.

Lemma step_Inv (s s' : System) : Inv s -> step s s' -> Inv s'.
Proof.
  intros HI Hstep. destruct Hstep.
  - now apply Execute_Inv.
  - now apply pumpTurn_Inv.
  - now apply deliver_Inv.
  - now apply rendezvous_Inv.
  - now apply complete_Inv.
  - now apply finish_Inv.
  - now apply finish_Inv.
Qed.

Lemma NewSystem_Inv : Inv NewSystem.
Proof.
  unfold Inv; cbn. repeat split; auto.
Qed.

(** Every state of a session satisfies [Inv]. *)
Lemma reachable_Inv (s : System) : reachable s -> Inv s.
Proof.
  induction 1 as [|s s' _ IH Hstep]; [exact NewSystem_Inv|].
  exact (step_Inv s s' IH Hstep).
Qed.

Lemma reachable_running : reachable Examples.running.
Proof.
  apply reachable_step with NewSystem; [constructor|]. now apply step_Execute.
Qed.

Lemma reachable_lost : reachable Examples.lost.
Proof.
  apply reachable_step with Examples.running; [exact reachable_running|].
  apply step_pump; [exact I|reflexivity].
Qed.

Lemma reachable_redialled : reachable Examples.redialled.
Proof.
  apply reachable_step with Examples.lost; [exact reachable_lost|].
  apply step_deliver; [exact I|reflexivity].
Qed.

(** ** The pending reconnection *)

(** C4, as the code has it: between two calls of the handler, a pending
    reconnection means that no open connection is held: the handle is nil or
    is that of a connection that has been closed. *)
Theorem reconnect_pending_holds_no_open_connection (s : System) :
  reachable s ->
  handler s = NoCall ->
  reconnectToPort (plugin s) = true ->
  match tcpConn (plugin s) with
  | Some c => closed c (world s) = true
  | None => True
  end.
Proof.
  intros Hreach Hn Hr.
  destruct (reachable_Inv s Hreach) as (_ & _ & Hh).
  rewrite Hn in Hh. specialize (Hh Hr).
  destruct (tcpConn (plugin s)); [apply Hh|exact I].
Qed.

Lemma reconnect_pending_holds_no_open_connection_witness :
  closed 0 (world Examples.lost) = true.
Proof.
  exact (reconnect_pending_holds_no_open_connection Examples.lost reachable_lost
           eq_refl eq_refl).
Defined.

(** C4 as the spec words it fails: after a read error the reconnection is
    pending and the handle of the closed connection is still there; and while
    the handler hands the result of a dial to the pump the reconnection is
    still pending and the handle is that of the new, open connection. *)
Lemma reconnect_pending_with_connection_handle :
  (reachable Examples.lost
   /\ reconnectToPort (plugin Examples.lost) = true
   /\ tcpConn (plugin Examples.lost) = Some 0)
  /\ (reachable Examples.redialled
      /\ reconnectToPort (plugin Examples.redialled) = true
      /\ tcpConn (plugin Examples.redialled) = Some 1
      /\ closed 1 (world Examples.redialled) = false).
Proof.
  split.
  - split; [exact reachable_lost|]. split; reflexivity.
  - split; [exact reachable_redialled|]. repeat split.
Qed.

(** What the handler does with a data message when a reconnection is pending
    and there is a handle. *)
Lemma deliver_reconnect (msg : AgentMessage) (dial : DialResult) (wr : option error)
    (s : System) :
  reconnectToPort (plugin s) = true ->
  tcpConn (plugin s) <> None ->
  PayloadType msg = Output ->
  deliver msg dial wr s
  = let '(p, w, err) := startTCPConn dial (plugin s) (world s) in
    (mkSystem p w (pump s) (Sending err msg) (lifecycle s), BlockedOnSend err).
Proof.
  intros Hr Hc Hout. unfold deliver, InputStreamMessageHandler.
  destruct (tcpConn (plugin s)); [|contradiction].
  rewrite Hout, Hr. cbn. now destruct dial.
Qed.

(** A state with a pending reconnection and a handle, between two calls of the
    handler: the process is alive and the pump waits. *)
Lemma reconnect_pending_pump_receives (s : System) :
  reachable s ->
  handler s = NoCall ->
  reconnectToPort (plugin s) = true ->
  tcpConn (plugin s) <> None ->
  alive s /\ pump s = Receiving.
Proof.
  intros Hreach Hn Hr Hc.
  destruct (reachable_Inv s Hreach) as (_ & Halive & Hh).
  split; [destruct Halive; [assumption|congruence]|].
  rewrite Hn in Hh. specialize (Hh Hr).
  destruct (tcpConn (plugin s)); [apply Hh|contradiction].
Qed.

(** C5: when a data message finds a reconnection pending and the dial it
    makes succeeds, the handler hands nil to the pump, [handlePortError]
    returns the resume code, the pump reads again, now from the new
    connection, and the handler clears [reconnectToPort] before it writes. *)
Theorem redial_success_resumes_pump (s : System) (msg : AgentMessage) (c : Conn)
    (wr : option error) :
  reachable s ->
  handler s = NoCall ->
  reconnectToPort (plugin s) = true ->
  tcpConn (plugin s) <> None ->
  PayloadType msg = Output ->
  let s1 := fst (deliver msg (Connected c) wr s) in
  let s2 := rendezvous None msg s1 in
  let s3 := fst (complete None msg wr s2) in
  snd (deliver msg (Connected c) wr s) = BlockedOnSend None
  /\ step s s1 /\ step s1 s2 /\ step s2 s3
  /\ handlePortError_received None = ResumeReadExitCode
  /\ pump s2 = Reading
  /\ tcpConn (plugin s2) = Some c
  /\ plugin s3 = set_reconnectToPort false (set_tcpConn (Some c) (plugin s))
  /\ pump s3 = Reading
  /\ handler s3 = NoCall
  /\ forall (wr' : option error) (s' : System),
      reconnectToPort (plugin (fst (complete None msg wr' s'))) = false.
Proof.
  intros Hreach Hn Hr Hc Hout s1 s2 s3.
  destruct (reconnect_pending_pump_receives s Hreach Hn Hr Hc) as [Halive Hpump].
  assert (Hd : deliver msg (Connected c) wr s
               = (mkSystem (set_tcpConn (Some c) (plugin s))
                    (world s ++ [DialCall "tcp" ("localhost:" ++ portNumber (plugin s))%string])
                    (pump s) (Sending None msg) (lifecycle s), BlockedOnSend None)).
  { now rewrite deliver_reconnect. }
  assert (Hs1 : step s s1) by now apply step_deliver.
  subst s3 s2 s1. rewrite Hd in *. cbn [fst snd] in *.
  split; [reflexivity|]. split; [exact Hs1|]. split.
  { apply step_rendezvous; [exact Halive|reflexivity|exact Hpump]. }
  split.
  { apply step_complete; [exact Halive|reflexivity]. }
  repeat split.
  intros wr' s'. unfold complete, InputStreamMessageHandler_sent,
    InputStreamMessageHandler_write, conn_Write. cbn.
  now destruct (tcpConn (plugin s')).
Qed.

Lemma redial_success_resumes_pump_witness :
  pump (rendezvous None Examples.dataMsg Examples.redialled) = Reading.
Proof.
  apply (redial_success_resumes_pump Examples.lost Examples.dataMsg 1 None);
    [exact reachable_lost | reflexivity | reflexivity | discriminate | reflexivity].
Defined.

(** C6: when a data message finds a reconnection pending and the dial it
    makes fails, the handler hands the error of the connector (which wraps
    that of the dial) to the pump and returns it to its caller;
    [reconnectToPort] stays set, and the pump returns the error exit code,
    which is not zero and ends the session as Failed. *)
Theorem redial_failure_fails_pump (s : System) (msg : AgentMessage) (e : error)
    (wr : option error) :
  reachable s ->
  handler s = NoCall ->
  reconnectToPort (plugin s) = true ->
  tcpConn (plugin s) <> None ->
  PayloadType msg = Output ->
  let err := errors_New ("Unable to connect to specified port: " ++ Error e)%string in
  let s1 := fst (deliver msg (Refused e) wr s) in
  let s2 := rendezvous (Some err) msg s1 in
  let s3 := complete (Some err) msg wr s2 in
  snd (deliver msg (Refused e) wr s) = BlockedOnSend (Some err)
  /\ step s s1 /\ step s1 s2 /\ step s2 (fst s3)
  /\ snd s3 = Returned (Some err)
  /\ reconnectToPort (plugin (fst s3)) = true
  /\ handler (fst s3) = NoCall
  /\ handlePortError_received (Some err) = ErrorExitCode
  /\ pump s2 = Exited ErrorExitCode
  /\ pump (fst s3) = Exited ErrorExitCode
  /\ ErrorExitCode <> 0%Z
  /\ status_of (world (finish (done ErrorExitCode) (fst s3))) = Some ResultStatusFailed.
Proof.
  intros Hreach Hn Hr Hc Hout err s1 s2 s3.
  destruct (reconnect_pending_pump_receives s Hreach Hn Hr Hc) as [Halive Hpump].
  assert (Hd : deliver msg (Refused e) wr s
               = (mkSystem (set_tcpConn None (plugin s))
                    (world s ++ [DialCall "tcp" ("localhost:" ++ portNumber (plugin s))%string])
                    (pump s) (Sending (Some err) msg) (lifecycle s),
                  BlockedOnSend (Some err))).
  { now rewrite deliver_reconnect. }
  assert (Hs1 : step s s1) by now apply step_deliver.
  subst s3 s2 s1. rewrite Hd in *. cbn [fst snd] in *.
  split; [reflexivity|]. split; [exact Hs1|]. split.
  { apply step_rendezvous; [exact Halive|reflexivity|exact Hpump]. }
  split.
  { apply step_complete; [exact Halive|reflexivity]. }
  split; [reflexivity|]. split; [exact Hr|].
  repeat split; try discriminate.
  cbn. now rewrite status_of_app.
Qed.

Lemma redial_failure_fails_pump_witness :
  pump (rendezvous
          (Some (errors_New "Unable to connect to specified port: connection refused"))
          Examples.dataMsg Examples.refused)
  = Exited ErrorExitCode.
Proof.
  apply (redial_failure_fails_pump Examples.lost Examples.dataMsg
           (errors_New "connection refused") None);
    [exact reachable_lost | reflexivity | reflexivity | discriminate | reflexivity].
Defined.

(** ** The decoding of a flag *)

Lemma lor_eq_1 (a b : N) :
  N.lor a b = 1%N -> (a = 0%N \/ a = 1%N) /\ (b = 0%N \/ b = 1%N).
Proof.
  destruct a as [|p], b as [|q]; cbn; intros H.
  - discriminate.
  - auto.
  - auto.
  - destruct p, q; cbn in H; try discriminate. auto.
Qed.

Lemma lor_shiftl_eq_1 (a n r : N) :
  (0 < n)%N -> N.lor (N.shiftl a n) r = 1%N -> a = 0%N /\ r = 1%N.
Proof.
  intros Hn H. assert (Ha : a = 0%N).
  { destruct (lor_eq_1 _ _ H) as [[H0|H1] _].
    - now apply N.shiftl_eq_0_iff in H0.
    - exfalso. assert (Hb : N.testbit (N.shiftl a n) 0 = true) by now rewrite H1.
      rewrite N.shiftl_spec_low in Hb by exact Hn. discriminate. }
  subst a. rewrite N.shiftl_0_l, N.lor_0_l in H. auto.
Qed.

Lemma to_N_eq (b b' : byte) : Byte.to_N b = Byte.to_N b' -> b = b'.
Proof.
  intros H. assert (H' : Some b = Some b').
  { rewrite <- (Byte.of_to_N b), <- (Byte.of_to_N b'). now rewrite H. }
  now injection H'.
Qed.

(** The four bytes that decode to DisconnectToPort. *)
Lemma getFlag_DisconnectToPort (payload : list byte) :
  getFlag payload = DisconnectToPort ->
  exists rest, payload = x00 :: x00 :: x00 :: x01 :: rest.
Proof.
  destruct payload as [|b0 [|b1 [|b2 [|b3 rest]]]]; try discriminate.
  unfold getFlag, DisconnectToPort. intros H.
  apply lor_shiftl_eq_1 in H; [|reflexivity]. destruct H as [H0 H].
  apply lor_shiftl_eq_1 in H; [|reflexivity]. destruct H as [H1 H].
  apply lor_shiftl_eq_1 in H; [|reflexivity]. destruct H as [H2 H3].
  exists rest.
  rewrite (to_N_eq b0 x00 H0), (to_N_eq b1 x00 H1), (to_N_eq b2 x00 H2),
    (to_N_eq b3 x01 H3).
  reflexivity.
Qed.

(** X1: a payload decodes to the flag DisconnectToPort exactly when it starts
    with the four bytes 00 00 00 01; what follows them is not looked at, and a
    payload of fewer than four bytes decodes to no flag. *)
Theorem getFlag_DisconnectToPort_iff (payload : list byte) :
  getFlag payload = DisconnectToPort
  <-> exists rest, payload = x00 :: x00 :: x00 :: x01 :: rest.
Proof.
  split; [apply getFlag_DisconnectToPort|].
  intros [rest ->]. reflexivity.
Qed.

(** X2: what a flag message does depends on its first four bytes only: when
    they are 00 00 00 01 the handler calls [stop], and in every other case,
    a payload too short to hold a flag among them, it does nothing; either
    way it returns nil and leaves the plugin as it was. *)
Theorem Flag_message (msg : AgentMessage) (dial : DialResult) (wr : option error)
    (p : PortPlugin) (w : World) :
  PayloadType msg = Flag ->
  ((exists rest, Payload msg = x00 :: x00 :: x00 :: x01 :: rest) ->
   InputStreamMessageHandler msg dial wr p w = (p, stop p w, Returned None))
  /\ (~ (exists rest, Payload msg = x00 :: x00 :: x00 :: x01 :: rest) ->
      InputStreamMessageHandler msg dial wr p w = (p, w, Returned None))
  /\ ((List.length (Payload msg) < 4)%nat ->
      InputStreamMessageHandler msg dial wr p w = (p, w, Returned None)).
Proof.
  intros Hflag.
  assert (Hno : ~ (exists rest, Payload msg = x00 :: x00 :: x00 :: x01 :: rest) ->
                InputStreamMessageHandler msg dial wr p w = (p, w, Returned None)).
  { intros Hn. unfold InputStreamMessageHandler. rewrite Hflag. cbn.
    destruct (tcpConn p); [|reflexivity].
    destruct (N.eqb_spec (getFlag (Payload msg)) DisconnectToPort) as [Heq|]; [|reflexivity].
    destruct Hn. now apply getFlag_DisconnectToPort. }
  split; [|split; [exact Hno|]].
  - intros [rest Hrest]. unfold InputStreamMessageHandler, stop.
    rewrite Hflag, Hrest. cbn. now destruct (tcpConn p).
  - intros Hlen. apply Hno. intros [rest Hrest]. rewrite Hrest in Hlen.
    cbn in Hlen. lia.
Qed.

Lemma Flag_message_witness :
  InputStreamMessageHandler (mkAgentMessage Flag 9 [x00; x00; x01]) (Connected 1) None
    Examples.connected []
  = (Examples.connected, [], Returned None).
Proof.
  apply (Flag_message (mkAgentMessage Flag 9 [x00; x00; x01]) (Connected 1) None
           Examples.connected []); [reflexivity | cbn; lia].
Defined.

(** ** Data for the port *)

(** X3: a data message that finds a connection handle and no reconnection
    pending is written to that connection, whole and once; the handler
    returns what the write returns, the error of a closed connection when the
    connection has been closed, and neither the plugin nor the pump is touched:
    a write that fails does not end the session. *)
Theorem data_is_written (msg : AgentMessage) (dial : DialResult) (wr : option error)
    (s : System) (c : Conn) :
  tcpConn (plugin s) = Some c ->
  reconnectToPort (plugin s) = false ->
  PayloadType msg = Output ->
  handler s = NoCall ->
  deliver msg dial wr s
  = (mkSystem (plugin s) (world s ++ [ConnWrite c (Payload msg)]) (pump s) NoCall
       (lifecycle s),
     Returned (if closed c (world s) then Some ErrNetClosing else wr)).
Proof.
  intros Hc Hr Hout Hn.
  unfold deliver, InputStreamMessageHandler, InputStreamMessageHandler_write, conn_Write.
  rewrite Hc, Hout, Hr. reflexivity.
Qed.

Lemma data_is_written_witness :
  deliver Examples.dataMsg (Connected 1) (Some (errors_New "broken pipe")) Examples.running
  = (mkSystem (plugin Examples.running)
       (world Examples.running ++ [ConnWrite 0 [x68; x69]]) Reading NoCall Running,
     Returned (Some (errors_New "broken pipe"))).
Proof.
  apply (data_is_written Examples.dataMsg (Connected 1)
           (Some (errors_New "broken pipe")) Examples.running 0); reflexivity.
Defined.

(** ** The start of a session *)

(** X4: when the parameters cannot be initialized, [Execute] dials nothing
    and starts no pump: it reports the error exit code, the status Failed and
    the message of the error, runs the deferred [stop] and returns, the plugin
    unchanged but for the data channel. *)
Theorem Execute_bad_parameters (config : Properties) (dc : DataChannel)
    (dial : DialResult) (s : System) :
  (exists e, Remarshal config = DecodeError e)
  \/ (exists pp, Remarshal config = Decoded pp /\ PortNumber pp = "") ->
  let s' := Execute false false config dc dial s in
  exists err,
    initializeParameters config (set_dataChannel (Some dc) (plugin s))
    = Returns (set_dataChannel (Some dc) (plugin s), Some err)
    /\ s' = mkSystem (set_dataChannel (Some dc) (plugin s))
              (stop (plugin s)
                 (world s ++ [SetExitCode ErrorExitCode; SetStatus ResultStatusFailed;
                              SetOutput (Error err)]))
              (pump s) (handler s) Stopped
    /\ existsb dials (world s') = existsb dials (world s)
    /\ status_of (world s') = Some ResultStatusFailed.
Proof.
  intros Hbad s'. subst s'.
  assert (Hinit : exists err,
             initializeParameters config (set_dataChannel (Some dc) (plugin s))
             = Returns (set_dataChannel (Some dc) (plugin s), Some err)).
  { unfold initializeParameters.
    destruct Hbad as [[e ->]|[pp [-> Hport]]]; [|rewrite Hport]; eexists; reflexivity. }
  destruct Hinit as [err Hinit]. exists err. split; [exact Hinit|].
  unfold Execute, execute. rewrite Hinit.
  split; [reflexivity|]. cbn [world]. unfold failed, stop. cbn [tcpConn set_dataChannel].
  split.
  - destruct (tcpConn (plugin s));
      rewrite ?existsb_app; cbn; now rewrite ?orb_false_r.
  - destruct (tcpConn (plugin s)); rewrite ?status_of_app; reflexivity.
Qed.

Lemma Execute_bad_parameters_witness :
  exists err,
    initializeParameters Examples.noPort (set_dataChannel (Some 7) (plugin NewSystem))
    = Returns (set_dataChannel (Some 7) (plugin NewSystem), Some err)
    /\ Execute false false Examples.noPort 7 (Connected 0) NewSystem
       = mkSystem (set_dataChannel (Some 7) (plugin NewSystem))
           (stop (plugin NewSystem)
              (world NewSystem ++ [SetExitCode ErrorExitCode; SetStatus ResultStatusFailed;
                                   SetOutput (Error err)]))
           (pump NewSystem) (handler NewSystem) Stopped
    /\ existsb dials (world (Execute false false Examples.noPort 7 (Connected 0) NewSystem))
       = existsb dials (world NewSystem)
    /\ status_of (world (Execute false false Examples.noPort 7 (Connected 0) NewSystem))
       = Some ResultStatusFailed.
Proof.
  apply (Execute_bad_parameters Examples.noPort 7 (Connected 0) NewSystem).
  right. eexists. split; reflexivity.
Defined.

(** X5: when the parameters are good and the dial fails, [Execute] has dialled
    the port on the loopback once, holds no connection, starts no pump, and
    reports the error exit code, the status Failed and the connector's error,
    which wraps that of the dial. *)
Theorem Execute_dial_refused (config : Properties) (dc : DataChannel) (e : error)
    (s : System) (pp : PortParameters) :
  Remarshal config = Decoded pp ->
  PortNumber pp <> "" ->
  Execute false false config dc (Refused e) s
  = mkSystem (set_tcpConn None (set_parameters pp (set_dataChannel (Some dc) (plugin s))))
      (world s ++ [DialCall "tcp" ("localhost:" ++ PortNumber pp)%string;
                   SetExitCode ErrorExitCode;
                   SetStatus ResultStatusFailed;
                   SetOutput ("Unable to connect to specified port: " ++ Error e)%string])
      (pump s) (handler s) Stopped.
Proof.
  intros Hdec Hport. unfold Execute, execute, initializeParameters.
  rewrite Hdec. destruct (String.eqb_spec (PortNumber pp) ""); [contradiction|].
  cbn. unfold failed. now rewrite <- app_assoc.
Qed.

Lemma Execute_dial_refused_witness :
  Execute false false Examples.localForward 7 (Refused (errors_New "connection refused"))
    NewSystem
  = mkSystem (mkPortPlugin None (Some 7) "8080" LocalPortForwarding false)
      [DialCall "tcp" "localhost:8080"; SetExitCode 1; SetStatus ResultStatusFailed;
       SetOutput "Unable to connect to specified port: connection refused"]
      NotStarted NoCall Stopped.
Proof.
  apply (Execute_dial_refused Examples.localForward 7 (errors_New "connection refused")
           NewSystem (mkPortParameters "8080" LocalPortForwarding));
    [reflexivity | discriminate].
Defined.



Lemma getFlag_DisconnectToPort_iff_witness :
  getFlag [x00; x00; x00; x01; xff] = DisconnectToPort.
Proof.
  apply (proj2 (getFlag_DisconnectToPort_iff [x00; x00; x00; x01; xff])).
  exists [xff]. reflexivity.
Defined.

(** ** The write pump *)

Lemma sent_app (w w' : World) : sent (w ++ w') = sent w ++ sent w'.
Proof.
  induction w as [|e w IH]; [reflexivity|].
  destruct e; cbn; now rewrite IH.
Qed.

Lemma sent_stop (p : PortPlugin) (w : World) : sent (stop p w) = sent w.
Proof.
  unfold stop. destruct (tcpConn p); [|reflexivity].
  rewrite sent_app. cbn. apply app_nil_r.
Qed.

(** X7: as long as the reads give bytes and the data channel takes them, the
    pump hands every chunk to the data channel as one [Output] message, in
    the order read and cut to the size of the buffer, calls no other
    collaborator, leaves the plugin as it is and goes on reading. *)
Theorem pump_forwards_in_order (chunks : list (list byte)) (s : System) (c : Conn)
    (dc : DataChannel) :
  pump s = Reading ->
  tcpConn (plugin s) = Some c ->
  closed c (world s) = false ->
  dataChannel (plugin s) = Some dc ->
  let s' := pumpTurns (map (fun b => (ReadBytes b, None)) chunks) s in
  world s'
  = world s
    ++ map (fun b => SendStreamDataMessage Output (firstn StreamDataPayloadSize b)) chunks
  /\ sent (world s') = sent (world s) ++ map (firstn StreamDataPayloadSize) chunks
  /\ Forall (fun b => (List.length b <= StreamDataPayloadSize)%nat)
       (map (firstn StreamDataPayloadSize) chunks)
  /\ plugin s' = plugin s
  /\ pump s' = Reading.
Proof.
  intros Hp Hc Hcl Hdc s'.
  assert (Hrun : world s'
                 = world s
                   ++ map (fun b => SendStreamDataMessage Output
                                      (firstn StreamDataPayloadSize b)) chunks
                 /\ plugin s' = plugin s /\ pump s' = Reading).
  { subst s'. revert s Hp Hc Hcl Hdc.
    induction chunks as [|b chunks IH]; intros s Hp Hc Hcl Hdc.
    - cbn. rewrite app_nil_r. auto.
    - cbn [map pumpTurns]. rewrite Hp.
      assert (Hturn : pumpTurn (ReadBytes b) None s
                      = mkSystem (plugin s)
                          (world s ++ [SendStreamDataMessage Output
                                         (firstn StreamDataPayloadSize b)])
                          Reading (handler s) (lifecycle s)).
      { unfold pumpTurn, writePump, conn_Read. now rewrite Hc, Hcl, Hdc. }
      rewrite Hturn.
      destruct (IH (mkSystem (plugin s)
                      (world s ++ [SendStreamDataMessage Output
                                     (firstn StreamDataPayloadSize b)])
                      Reading (handler s) (lifecycle s))) as (Hw & Hpl & Hpu);
        try assumption; try reflexivity.
      { cbn [world]. rewrite closed_app, Hcl. reflexivity. }
      rewrite Hw, Hpl, Hpu. cbn [world plugin]. rewrite <- app_assoc. auto. }
  destruct Hrun as (Hw & Hpl & Hpu).
  split; [exact Hw|]. split.
  - rewrite Hw, sent_app. f_equal.
    clear. induction chunks as [|b chunks IH]; [reflexivity|].
    cbn [sent map]. now rewrite IH.
  - split; [|auto].
    apply Forall_forall. intros b Hin. apply in_map_iff in Hin.
    destruct Hin as (b' & <- & _). apply firstn_le_length.
Qed.

Lemma pump_forwards_in_order_witness :
  sent (world (pumpTurns [(ReadBytes [x61], None); (ReadBytes [x62; x63], None)]
                 Examples.running))
  = [[x61]; [x62; x63]].
Proof.
  apply (pump_forwards_in_order [[x61]; [x62; x63]] Examples.running 0 7);
    reflexivity.
Defined.

(** X8: when the data channel refuses a chunk, the pump has handed it over,
    returns the error exit code without another read, and the select of
    [execute] then ends the session as Failed and closes the connection. *)
Theorem pump_send_failure (b : list byte) (e : error) (s : System) (c : Conn)
    (dc : DataChannel) :
  tcpConn (plugin s) = Some c ->
  closed c (world s) = false ->
  dataChannel (plugin s) = Some dc ->
  let s' := pumpTurn (ReadBytes b) (Some e) s in
  s' = mkSystem (plugin s)
         (world s ++ [SendStreamDataMessage Output (firstn StreamDataPayloadSize b)])
         (Exited ErrorExitCode) (handler s) (lifecycle s)
  /\ (forall turns, pumpTurns turns s' = s')
  /\ world (finish (done ErrorExitCode) s')
     = world s' ++ [SetExitCode ErrorExitCode; SetStatus ResultStatusFailed; ConnClose c].
Proof.
  intros Hc Hcl Hdc s'.
  assert (Hs' : s' = mkSystem (plugin s)
                       (world s ++ [SendStreamDataMessage Output
                                      (firstn StreamDataPayloadSize b)])
                       (Exited ErrorExitCode) (handler s) (lifecycle s)).
  { subst s'. unfold pumpTurn, writePump, conn_Read. now rewrite Hc, Hcl, Hdc. }
  split; [exact Hs'|]. rewrite Hs'. split.
  - intros [|[r snd] turns]; reflexivity.
  - cbn. unfold execute_select, stop. cbn. rewrite Hc. now rewrite <- app_assoc.
Qed.

Lemma pump_send_failure_witness :
  pumpTurn (ReadBytes [x61]) (Some (errors_New "channel closed")) Examples.running
  = mkSystem (plugin Examples.running)
      (world Examples.running ++ [SendStreamDataMessage Output [x61]])
      (Exited ErrorExitCode) NoCall Running.
Proof.
  apply (pump_send_failure [x61] (errors_New "channel closed") Examples.running 0 7);
    reflexivity.
Defined.

Lemma handler_write_sends_nothing (msg : AgentMessage) (wr : option error)
    (p : PortPlugin) (w : World) :
  sent (snd (fst (InputStreamMessageHandler_write msg wr p w))) = sent w.
Proof.
  unfold InputStreamMessageHandler_write, conn_Write.
  destruct (tcpConn p); cbn; [|reflexivity].
  rewrite sent_app. cbn. apply app_nil_r.
Qed.

(** The handler never calls the data channel. *)
Lemma deliver_sends_nothing (msg : AgentMessage) (dial : DialResult) (wr : option error)
    (s : System) :
  sent (world (fst (deliver msg dial wr s))) = sent (world s)
  /\ pump (fst (deliver msg dial wr s)) = pump s.
Proof.
  unfold deliver.
  destruct (InputStreamMessageHandler msg dial wr (plugin s) (world s))
    as [[p w] r] eqn:H.
  cbn. split; [|reflexivity].
  change w with (snd (fst (p, w, r))). rewrite <- H. clear H.
  unfold InputStreamMessageHandler.
  destruct (tcpConn (plugin s)); [|reflexivity].
  destruct (N.eqb (PayloadType msg) Output).
  - destruct (reconnectToPort (plugin s)).
    + unfold startTCPConn. destruct dial; cbn; rewrite sent_app; cbn; apply app_nil_r.
    + apply handler_write_sends_nothing.
  - destruct (N.eqb (PayloadType msg) Flag); [|reflexivity].
    destruct (N.eqb (getFlag (Payload msg)) DisconnectToPort); [|reflexivity].
    cbn. apply sent_stop.
Qed.

Lemma complete_sends_nothing (err : option error) (msg : AgentMessage)
    (wr : option error) (s : System) :
  sent (world (fst (complete err msg wr s))) = sent (world s)
  /\ pump (fst (complete err msg wr s)) = pump s.
Proof.
  unfold complete.
  destruct (InputStreamMessageHandler_sent err msg wr (plugin s) (world s))
    as [[p w] r] eqn:H.
  cbn. split; [|reflexivity].
  change w with (snd (fst (p, w, r))). rewrite <- H. clear H.
  unfold InputStreamMessageHandler_sent. destruct err; [reflexivity|].
  apply handler_write_sends_nothing.
Qed.

Lemma finish_sends_nothing (c : SelectCase) (s : System) :
  sent (world (finish c s)) = sent (world s).
Proof.
  cbn. unfold execute_select. rewrite sent_stop.
  destruct c as [|exitCode]; [|destruct (Z.eqb exitCode 1)];
    rewrite sent_app; cbn; apply app_nil_r.
Qed.

(** X9: under local port forwarding every read error, the end of the stream
    too, makes the pump close the connection, keep the handle, set
    [reconnectToPort] and wait; it returns no exit code. *)
Theorem local_forward_read_error (s : System) (c : Conn) (r : ReadResult)
    (snd : option error) (err : error) :
  portType (plugin s) = LocalPortForwarding ->
  tcpConn (plugin s) = Some c ->
  conn_Read c r (world s) = ReadError err ->
  pumpTurn r snd s
  = mkSystem (set_reconnectToPort true (plugin s)) (world s ++ [ConnClose c])
      Receiving (handler s) (lifecycle s)
  /\ forall turns, pumpTurns turns (pumpTurn r snd s) = pumpTurn r snd s.
Proof.
  intros Htype Hc Hread.
  assert (H : pumpTurn r snd s
              = mkSystem (set_reconnectToPort true (plugin s)) (world s ++ [ConnClose c])
                  Receiving (handler s) (lifecycle s)).
  { unfold pumpTurn, writePump, handleTCPReadError, handlePortError, stop.
    rewrite Hc, Hread, Htype. reflexivity. }
  split; [exact H|]. rewrite H. intros [|[r' snd'] turns]; reflexivity.
Qed.

Lemma local_forward_read_error_witness :
  pumpTurn (ReadError EOF) None Examples.running
  = mkSystem (set_reconnectToPort true (plugin Examples.running))
      (world Examples.running ++ [ConnClose 0]) Receiving NoCall Running.
Proof.
  apply (local_forward_read_error Examples.running 0 (ReadError EOF) None EOF);
    reflexivity.
Defined.

(** X10: while the pump waits for a reconnection nothing is handed to the
    data channel, and the pump moves on only by taking what a call of the
    handler sends it. *)
Theorem waiting_pump_sends_nothing (s s' : System) :
  pump s = Receiving ->
  lifecycle s <> Idle ->
  step s s' ->
  sent (world s') = sent (world s)
  /\ (pump s' = Receiving
      \/ exists err msg, handler s = Sending err msg /\ s' = rendezvous err msg s).
Proof.
  intros Hp Hl Hstep. destruct Hstep.
  - contradiction.
  - congruence.
  - destruct (deliver_sends_nothing msg dial wr s) as [Hs Hpu].
    split; [exact Hs|left; congruence].
  - split; [reflexivity|]. right. eauto.
  - destruct (complete_sends_nothing err msg wr s) as [Hs Hpu].
    split; [exact Hs|left; congruence].
  - split; [apply finish_sends_nothing|now left].
  - split; [apply finish_sends_nothing|now left].
Qed.

Lemma waiting_pump_sends_nothing_witness :
  sent (world Examples.redialled) = sent (world Examples.lost)
  /\ (pump Examples.redialled = Receiving
      \/ exists err msg,
          handler Examples.lost = Sending err msg
          /\ Examples.redialled = rendezvous err msg Examples.lost).
Proof.
  apply (waiting_pump_sends_nothing Examples.lost Examples.redialled).
  - reflexivity.
  - discriminate.
  - apply step_deliver; [exact I|reflexivity].
Defined.

(** ** More on the states of a session *)

Lemma loopback_snoc (port : string) (w : World) (e : Effect) :
  Forall (dials_loopback port) w -> dials_loopback port e ->
  Forall (dials_loopback port) (w ++ [e]).
Proof.
  intros Hw He. apply Forall_app. split; [exact Hw|]. now constructor.
Qed.

Lemma loopback_stop (port : string) (p : PortPlugin) (w : World) :
  Forall (dials_loopback port) w -> Forall (dials_loopback port) (stop p w).
Proof.
  intros Hw. unfold stop. destruct (tcpConn p); [|exact Hw].
  now apply loopback_snoc.
Qed.

Lemma NewSystem_Sound : Sound NewSystem.
Proof.
  unfold Sound; cbn. repeat split; auto; discriminate.
Qed.

Lemma Execute_Sound (shutDown canceled : bool) (config : Properties) (dc : DataChannel)
    (dial : DialResult) (s : System) :
  Inv s -> Sound s -> lifecycle s = Idle ->
  Sound (Execute shutDown canceled config dc dial s).
Proof.
  intros (Hidle & _ & _) (Hnew & _) Hl.
  destruct (Hidle Hl) as (Hc & Hr & Hp & Hh). destruct (Hnew Hl) as (Hw & _).
  destruct s as [[tc dch pn pt rc] w pu h l]; cbn in *. subst tc rc w pu h l.
  unfold Execute, execute, initializeParameters, startTCPConn; cbn.
  destruct shutDown.
  { unfold Sound; cbn. repeat split; auto; try discriminate.
    repeat constructor. }
  destruct canceled.
  { unfold Sound; cbn. repeat split; auto; try discriminate.
    repeat constructor. }
  destruct (Remarshal config) as [pp|e|v]; cbn.
  - destruct (String.eqb (PortNumber pp) ""); cbn.
    + unfold Sound; cbn. repeat split; auto; try discriminate.
      repeat constructor.
    + destruct dial as [c|e]; cbn.
      * unfold Sound; cbn. repeat split; auto; try discriminate.
        repeat constructor.
      * unfold Sound; cbn. repeat split; auto; try discriminate.
        repeat constructor.
  - unfold Sound; cbn. repeat split; auto; try discriminate.
    repeat constructor.
  - unfold Sound; cbn. repeat split; auto; try discriminate.
    repeat constructor.
Qed.

Ltac sound :=
  unfold Sound; cbn;
  intuition (try discriminate; try congruence;
             try (apply loopback_snoc; [assumption | first [exact I | now split]])).

Lemma pumpTurn_Sound (r : ReadResult) (snd : option error) (s : System) :
  Sound s -> pump s = Reading -> Sound (pumpTurn r snd s).
Proof.
  intros (Hnew & Hdc & Hrd & Hh & Hst & Hal & _ & Hdial) Hp.
  assert (Hl : lifecycle s <> Idle).
  { intros Hl. destruct (Hnew Hl) as [_ Hp']. congruence. }
  specialize (Hdc Hl). specialize (Hrd Hp).
  assert (Hst' : lifecycle s = Running \/ lifecycle s = Stopped).
  { destruct Hst as [Hst|Hst]; [congruence|exact Hst]. }
  clear Hst.
  destruct s as [[tc dch pn pt rc] w pu h l]; cbn in *. subst pu.
  destruct tc as [c|]; [|contradiction]. destruct dch as [dc|]; [|contradiction].
  unfold pumpTurn, writePump, handleTCPReadError, handlePortError, stop; cbn.
  destruct (conn_Read c r w) as [b|err].
  - destruct snd; sound.
  - destruct (String.eqb_spec pt LocalPortForwarding) as [Hpt|Hpt]; cbn.
    + sound.
    + destruct err; sound.
Qed.

Lemma deliver_Sound (msg : AgentMessage) (dial : DialResult) (wr : option error)
    (s : System) :
  Inv s -> Sound s -> alive s -> handler s = NoCall ->
  Sound (fst (deliver msg dial wr s)).
Proof.
  intros (Hidle & _ & HI) (Hnew & Hdc & Hrd & _ & Hst & _ & Hex & Hdial) Halive Hn.
  rewrite Hn in HI.
  destruct s as [[tc dch pn pt rc] w pu h l]; cbn in *. subst h.
  unfold deliver, InputStreamMessageHandler, InputStreamMessageHandler_write,
    conn_Write, startTCPConn, stop; cbn.
  destruct tc as [c|]; cbn; [|sound].
  assert (Hl : l <> Idle).
  { intros Hl. destruct (Hidle Hl) as [Hc _]. discriminate. }
  clear Hidle.
  destruct (N.eqb (PayloadType msg) Output); cbn.
  - destruct rc; cbn.
    + destruct (HI eq_refl) as [_ Hpu]. subst pu.
      destruct dial as [c'|e]; sound.
    + sound.
  - destruct (N.eqb (PayloadType msg) Flag); cbn; [|sound].
    destruct (N.eqb (getFlag (Payload msg)) DisconnectToPort); cbn; sound.
Qed.

Lemma rendezvous_Sound (err : option error) (msg : AgentMessage) (s : System) :
  Sound s -> alive s -> handler s = Sending err msg -> pump s = Receiving ->
  Sound (rendezvous err msg s).
Proof.
  intros (Hnew & Hdc & Hrd & Hh & Hst & _ & _ & Hdial) Halive Hs Hp.
  rewrite Hs in Hh.
  assert (Hst' : lifecycle s = Running \/ lifecycle s = Stopped).
  { destruct Hst as [Hst|Hst]; [congruence|exact Hst]. }
  clear Hst.
  unfold rendezvous. destruct err as [e|]; sound.
Qed.

Lemma complete_Sound (err : option error) (msg : AgentMessage) (wr : option error)
    (s : System) :
  Inv s -> Sound s -> alive s -> handler s = Sent err msg ->
  Sound (fst (complete err msg wr s)).
Proof.
  intros (Hidle & _) (Hnew & Hdc & Hrd & Hh & Hst & _ & Hex & Hdial) Halive Hs.
  rewrite Hs in Hh.
  assert (Hl : lifecycle s <> Idle).
  { intros Hl. destruct (Hidle Hl) as (_ & _ & _ & Hn). congruence. }
  clear Hidle.
  destruct s as [[tc dch pn pt rc] w pu h l]; cbn in *. subst h.
  unfold complete, InputStreamMessageHandler_sent, InputStreamMessageHandler_write,
    conn_Write; cbn.
  destruct err as [e|]; cbn; [sound|].
  destruct tc as [c|]; [|contradiction]. cbn. sound.
Qed.

Lemma finish_Sound (c : SelectCase) (s : System) :
  Sound s -> lifecycle s = Running -> Sound (finish c s).
Proof.
  intros (Hnew & Hdc & Hrd & Hh & Hst & _ & Hex & Hdial) Hl.
  unfold finish, Sound; cbn [plugin world pump handler lifecycle].
  split; [discriminate|]. split; [intros _; apply Hdc; congruence|].
  split; [exact Hrd|]. split; [exact Hh|]. split; [auto|].
  split; [now right|]. split; [exact Hex|].
  unfold execute_select. apply loopback_stop.
  destruct c as [|exitCode]; [|destruct (Z.eqb exitCode 1)];
    (apply Forall_app; split; [exact Hdial|repeat constructor]).
Qed.

Lemma step_Sound (s s' : System) : Inv s -> Sound s -> step s s' -> Sound s'.
Proof.
  intros HI HS Hstep. destruct Hstep.
  - now apply Execute_Sound.
  - now apply pumpTurn_Sound.
  - now apply deliver_Sound.
  - now apply rendezvous_Sound.
  - now apply complete_Sound.
  - now apply finish_Sound.
  - now apply finish_Sound.
Qed.

(** Every state of a session satisfies [Sound]. *)
Lemma reachable_Sound (s : System) : reachable s -> Sound s.
Proof.
  induction 1 as [|s s' Hreach IH Hstep]; [exact NewSystem_Sound|].
  exact (step_Sound s s' (reachable_Inv s Hreach) IH Hstep).
Qed.

(** X11: whatever happens in a session, the plugin dials nothing but the TCP
    port of its parameters on the loopback: the first connection and every
    reconnection go to the same address. *)
Theorem dials_only_loopback (s : System) (network address : string) :
  reachable s ->
  In (DialCall network address) (world s) ->
  network = "tcp" /\ address = ("localhost:" ++ portNumber (plugin s))%string.
Proof.
  intros Hreach Hin.
  destruct (reachable_Sound s Hreach) as (_ & _ & _ & _ & _ & _ & _ & Hdial).
  rewrite Forall_forall in Hdial. exact (Hdial _ Hin).
Qed.

Lemma dials_only_loopback_witness :
  "tcp" = "tcp" /\ "localhost:8080" = ("localhost:" ++ portNumber (plugin Examples.redialled))%string.
Proof.
  apply (dials_only_loopback Examples.redialled "tcp" "localhost:8080").
  - exact reachable_redialled.
  - cbn. auto.
Defined.

(** X12: a pump that reads always has a connection and a data channel to
    call: in a session the deferred function of [writePump] never has a nil
    dereference to recover from. *)
Theorem pump_reads_with_handles (s : System) :
  reachable s ->
  pump s = Reading ->
  (exists c, tcpConn (plugin s) = Some c) /\ (exists dc, dataChannel (plugin s) = Some dc).
Proof.
  intros Hreach Hp.
  destruct (reachable_Sound s Hreach) as (Hnew & Hdc & Hrd & _).
  split.
  - specialize (Hrd Hp). destruct (tcpConn (plugin s)) as [c|]; [eauto|contradiction].
  - assert (Hl : lifecycle s <> Idle).
    { intros Hl. destruct (Hnew Hl) as [_ Hp']. congruence. }
    specialize (Hdc Hl). destruct (dataChannel (plugin s)) as [dc|]; [eauto|contradiction].
Qed.

Lemma pump_reads_with_handles_witness :
  (exists c, tcpConn (plugin Scenarios.resumed) = Some c)
  /\ (exists dc, dataChannel (plugin Scenarios.resumed) = Some dc).
Proof.
  apply (pump_reads_with_handles Scenarios.resumed); [|reflexivity].
  apply reachable_step with Examples.redialled; [exact reachable_redialled|].
  apply step_rendezvous; [exact I|reflexivity|reflexivity].
Defined.

(** X13: the pump returns the error code or the success code, never the
    resume code, and the success code only when the type is not that of local
    port forwarding: when a session with local port forwarding ends because
    the pump has returned, it ends as Failed. *)
Theorem pump_exit_codes (s : System) (code : Z) :
  reachable s ->
  pump s = Exited code ->
  (code = ErrorExitCode
   \/ (code = SuccessExitCode /\ portType (plugin s) <> LocalPortForwarding))
  /\ code <> ResumeReadExitCode
  /\ (portType (plugin s) = LocalPortForwarding ->
      status_of (world (finish (done code) s)) = Some ResultStatusFailed).
Proof.
  intros Hreach Hp.
  destruct (reachable_Sound s Hreach) as (_ & _ & _ & _ & _ & _ & Hex & _).
  rewrite Hp in Hex. split; [exact Hex|]. split.
  - destruct Hex as [->|[-> _]]; discriminate.
  - intros Hlocal. destruct Hex as [->|[_ Hno]]; [|contradiction].
    unfold finish, execute_select; cbn [world plugin]. rewrite status_of_stop.
    change (Z.eqb ErrorExitCode 1) with true. cbn iota. now rewrite status_of_app.
Qed.

Lemma pump_exit_codes_witness :
  (ErrorExitCode = ErrorExitCode
   \/ (ErrorExitCode = SuccessExitCode
       /\ portType (plugin Scenarios.gaveUp) <> LocalPortForwarding))
  /\ ErrorExitCode <> ResumeReadExitCode
  /\ (portType (plugin Scenarios.gaveUp) = LocalPortForwarding ->
      status_of (world (finish (done ErrorExitCode) Scenarios.gaveUp))
      = Some ResultStatusFailed).
Proof.
  apply (pump_exit_codes Scenarios.gaveUp ErrorExitCode); [|reflexivity].
  apply reachable_step
    with (rendezvous
            (Some (errors_New "Unable to connect to specified port: connection refused"))
            Examples.dataMsg Examples.refused).
  - apply reachable_step with Examples.refused.
    + apply reachable_step with Examples.lost; [exact reachable_lost|].
      apply step_deliver; [exact I|reflexivity].
    + apply step_rendezvous; [exact I|reflexivity|reflexivity].
  - apply step_complete; [exact I|reflexivity].
Defined.

(** X14: a call of the handler that sends the result of its dial never hangs:
    the pump is there to take it, and the call runs on to its return. *)
Theorem handler_call_returns (s : System) (err : option error) (msg : AgentMessage)
    (wr : option error) :
  reachable s ->
  handler s = Sending err msg ->
  let s1 := rendezvous err msg s in
  let s2 := fst (complete err msg wr s1) in
  pump s = Receiving /\ step s s1 /\ step s1 s2 /\ handler s2 = NoCall.
Proof.
  intros Hreach Hs s1 s2.
  destruct (reachable_Inv s Hreach) as (_ & _ & HI).
  destruct (reachable_Sound s Hreach) as (_ & _ & _ & _ & _ & Hal & _).
  rewrite Hs in HI. destruct HI as [Hp _].
  assert (Halive : alive s) by (destruct Hal as [Hn|Ha]; [congruence|exact Ha]).
  split; [exact Hp|]. split; [now apply step_rendezvous|]. split.
  - apply step_complete; [exact Halive|reflexivity].
  - subst s2. unfold complete.
    now destruct (InputStreamMessageHandler_sent err msg wr (plugin s1) (world s1))
      as [[p w] r].
Qed.

Lemma handler_call_returns_witness :
  pump Examples.redialled = Receiving
  /\ step Examples.redialled (rendezvous None Examples.dataMsg Examples.redialled)
  /\ step (rendezvous None Examples.dataMsg Examples.redialled)
       (fst (complete None Examples.dataMsg None
               (rendezvous None Examples.dataMsg Examples.redialled)))
  /\ handler (fst (complete None Examples.dataMsg None
                     (rendezvous None Examples.dataMsg Examples.redialled)))
     = NoCall.
Proof.
  apply (handler_call_returns Examples.redialled None Examples.dataMsg None);
    [exact reachable_redialled | reflexivity].
Defined.

(** What a step after [Execute] leaves as it is. *)
Lemma step_keeps_parameters (s s' : System) :
  step s s' ->
  lifecycle s <> Idle ->
  lifecycle s' <> Idle
  /\ portNumber (plugin s') = portNumber (plugin s)
  /\ portType (plugin s') = portType (plugin s)
  /\ dataChannel (plugin s') = dataChannel (plugin s).
Proof.
  intros Hstep Hl. destruct Hstep.
  - contradiction.
  - destruct s as [[tc dch pn pt rc] w pu h l]; cbn in *.
    unfold pumpTurn, writePump, handleTCPReadError, handlePortError; cbn.
    destruct tc as [c|]; cbn; [|auto].
    destruct (conn_Read c r w) as [b|err]; cbn.
    + destruct dch; [destruct snd|]; cbn; auto.
    + destruct (String.eqb pt LocalPortForwarding); cbn; auto.
  - destruct s as [[tc dch pn pt rc] w pu h l]; cbn in *.
    unfold deliver, InputStreamMessageHandler, InputStreamMessageHandler_write,
      conn_Write, startTCPConn; cbn.
    destruct tc as [c|]; cbn; [|auto].
    destruct (N.eqb (PayloadType msg) Output); cbn.
    + destruct rc; [destruct dial|]; cbn; auto.
    + destruct (N.eqb (PayloadType msg) Flag); cbn; [|auto].
      destruct (N.eqb (getFlag (Payload msg)) DisconnectToPort); cbn; auto.
  - cbn. auto.
  - destruct s as [[tc dch pn pt rc] w pu h l]; cbn in *.
    unfold complete, InputStreamMessageHandler_sent, InputStreamMessageHandler_write,
      conn_Write; cbn.
    destruct err; cbn; [auto|]. destruct tc; cbn; auto.
  - cbn. repeat split; auto. discriminate.
  - cbn. repeat split; auto. discriminate.
Qed.

(** X15: once [Execute] has been called, nothing that happens in the session
    changes the port number, the type or the data channel of the plugin, and
    [Execute] cannot start a second time. *)
Theorem parameters_are_fixed (s s' : System) :
  lifecycle s <> Idle ->
  steps s s' ->
  lifecycle s' <> Idle
  /\ portNumber (plugin s') = portNumber (plugin s)
  /\ portType (plugin s') = portType (plugin s)
  /\ dataChannel (plugin s') = dataChannel (plugin s).
Proof.
  intros Hl Hsteps. induction Hsteps as [s|s s' s'' _ IH Hstep]; [auto|].
  destruct (IH Hl) as (Hl' & Hn & Ht & Hd).
  destruct (step_keeps_parameters s' s'' Hstep Hl') as (Hl'' & Hn' & Ht' & Hd').
  repeat split; congruence.
Qed.

Lemma steps_running_wedged : steps Examples.running Scenarios.wedged.
Proof.
  apply steps_step with Scenarios.lostAgain;
    [|apply step_complete; [exact I|reflexivity]].
  apply steps_step with Scenarios.resumed;
    [|apply step_pump; [exact I|reflexivity]].
  apply steps_step with Examples.redialled;
    [|apply step_rendezvous; [exact I|reflexivity|reflexivity]].
  apply steps_step with Examples.lost;
    [|apply step_deliver; [exact I|reflexivity]].
  apply steps_step with Examples.running;
    [apply steps_refl|apply step_pump; [exact I|reflexivity]].
Qed.

Lemma parameters_are_fixed_witness :
  lifecycle Scenarios.wedged <> Idle
  /\ portNumber (plugin Scenarios.wedged) = portNumber (plugin Examples.running)
  /\ portType (plugin Scenarios.wedged) = portType (plugin Examples.running)
  /\ dataChannel (plugin Scenarios.wedged) = dataChannel (plugin Examples.running).
Proof.
  apply (parameters_are_fixed Examples.running Scenarios.wedged);
    [discriminate | exact steps_running_wedged].
Defined.

Lemma filter_reports_snoc (w : World) (e : Effect) :
  reports e = false -> filter reports (w ++ [e]) = filter reports w.
Proof.
  intros He. rewrite filter_app. cbn. rewrite He. apply app_nil_r.
Qed.

Lemma filter_reports_stop (p : PortPlugin) (w : World) :
  filter reports (stop p w) = filter reports w.
Proof.
  unfold stop. destruct (tcpConn p); [|reflexivity].
  now apply filter_reports_snoc.
Qed.

Lemma step_reports (s s' : System) :
  step s s' ->
  world s = [] \/ lifecycle s <> Idle ->
  List.length (filter reports (world s)) = match lifecycle s with Stopped => 1 | _ => 0 end ->
  List.length (filter reports (world s')) = match lifecycle s' with Stopped => 1 | _ => 0 end.
Proof.
  intros Hstep Hnew Hcount. destruct Hstep.
  - destruct Hnew as [Hw|Hl]; [|contradiction].
    unfold Execute, execute, initializeParameters, startTCPConn, failed. rewrite Hw.
    destruct shutDown; [reflexivity|]. destruct canceled; [reflexivity|].
    destruct (Remarshal config) as [pp|e|v]; cbn [world lifecycle].
    + destruct (String.eqb (PortNumber pp) ""); cbn [world lifecycle].
      * now rewrite filter_reports_stop.
      * destruct dial; cbn [world lifecycle]; [reflexivity|].
        now rewrite filter_reports_stop.
    + now rewrite filter_reports_stop.
    + rewrite filter_reports_snoc by reflexivity. now rewrite filter_reports_stop.
  - destruct s as [[tc dch pn pt rc] w pu h l]; cbn in *.
    unfold pumpTurn, writePump, handleTCPReadError, handlePortError, stop; cbn.
    destruct tc as [c|]; cbn; [|exact Hcount].
    destruct (conn_Read c r w) as [b|err]; cbn.
    + destruct dch; [destruct snd|]; cbn;
        rewrite ?filter_reports_snoc by reflexivity; exact Hcount.
    + destruct (String.eqb pt LocalPortForwarding); cbn;
        rewrite ?filter_reports_snoc by reflexivity; exact Hcount.
  - destruct s as [[tc dch pn pt rc] w pu h l]; cbn in *.
    unfold deliver, InputStreamMessageHandler, InputStreamMessageHandler_write,
      conn_Write, startTCPConn, stop; cbn.
    destruct tc as [c|]; cbn; [|exact Hcount].
    destruct (N.eqb (PayloadType msg) Output); cbn.
    + destruct rc; [destruct dial|]; cbn;
        rewrite ?filter_reports_snoc by reflexivity; exact Hcount.
    + destruct (N.eqb (PayloadType msg) Flag); cbn; [|exact Hcount].
      destruct (N.eqb (getFlag (Payload msg)) DisconnectToPort); cbn;
        rewrite ?filter_reports_snoc by reflexivity; exact Hcount.
  - exact Hcount.
  - destruct s as [[tc dch pn pt rc] w pu h l]; cbn in *.
    unfold complete, InputStreamMessageHandler_sent, InputStreamMessageHandler_write,
      conn_Write; cbn.
    destruct err; cbn; [exact Hcount|].
    destruct tc; cbn; rewrite ?filter_reports_snoc by reflexivity; exact Hcount.
  - rewrite H in Hcount. unfold finish, execute_select; cbn [world lifecycle].
    rewrite filter_reports_stop, filter_app, length_app, Hcount. reflexivity.
  - rewrite H in Hcount. unfold finish, execute_select; cbn [world lifecycle].
    rewrite filter_reports_stop.
    destruct (Z.eqb exitCode 1); rewrite filter_app, length_app, Hcount; reflexivity.
Qed.

(** X16: the outcome of a session is reported once: the IO handler has got no
    status, and no mark of shutdown or cancellation, while the session runs,
    and exactly one of them once [Execute] has returned; after [os.Exit] it
    has got none. *)
Theorem outcome_reported_once (s : System) :
  reachable s ->
  List.length (filter reports (world s))
  = match lifecycle s with
    | Stopped => 1
    | _ => 0
    end.
Proof.
  induction 1 as [|s s' Hreach IH Hstep]; [reflexivity|].
  apply (step_reports s s' Hstep); [|exact IH].
  destruct (reachable_Sound s Hreach) as (Hnew & _).
  destruct (lifecycle s) eqn:Hl; try (right; discriminate).
  left. now destruct (Hnew eq_refl).
Qed.

Lemma outcome_reported_once_witness :
  List.length (filter reports (world Scenarios.cancelledWhileLost)) = 1.
Proof.
  apply (outcome_reported_once Scenarios.cancelledWhileLost).
  apply reachable_step with Examples.lost; [exact reachable_lost|].
  now apply step_cancelled.
Defined.

(** ** A pump that waits in vain *)

Lemma step_Waiting (s s' : System) : Sound s -> Waiting s -> step s s' -> Waiting s'.
Proof.
  intros (Hnew & _) HW Hstep. destruct Hstep.
  - destruct (Hnew H) as [_ Hp]. unfold Waiting, Execute.
    destruct shutDown; [cbn; congruence|]. destruct canceled; [cbn; congruence|].
    destruct (execute config dial (set_dataChannel (Some dc) (plugin s)) (world s))
      as [[p' w'] [| |v]]; cbn; congruence.
  - destruct s as [[tc dch pn pt rc] w pu h l]; cbn in *. subst pu.
    unfold Waiting, pumpTurn, writePump, handleTCPReadError, handlePortError, stop; cbn.
    destruct tc as [c|]; cbn; [|discriminate].
    destruct (conn_Read c r w) as [b|err]; cbn.
    + destruct dch; [destruct snd|]; cbn; discriminate.
    + destruct (String.eqb pt LocalPortForwarding); cbn.
      * intros _. destruct h; auto; apply closed_ConnClose.
      * destruct err; cbn; discriminate.
  - destruct s as [[tc dch pn pt rc] w pu h l]; cbn in *. subst h.
    unfold Waiting in *; cbn in *.
    unfold deliver, InputStreamMessageHandler, InputStreamMessageHandler_write,
      conn_Write, startTCPConn, stop; cbn.
    destruct tc as [c|]; cbn; [|auto].
    destruct (N.eqb (PayloadType msg) Output); cbn.
    + destruct rc; [destruct dial; cbn; auto|]. cbn.
      intros Hp. apply closed_snoc_mono. now apply HW.
    + destruct (N.eqb (PayloadType msg) Flag); cbn; [|exact HW].
      destruct (N.eqb (getFlag (Payload msg)) DisconnectToPort); cbn; [|exact HW].
      intros _. apply closed_ConnClose.
  - unfold Waiting, rendezvous; cbn. unfold writePump_received.
    destruct err; cbn; discriminate.
  - destruct s as [[tc dch pn pt rc] w pu h l]; cbn in *. subst h.
    unfold Waiting in *; cbn in *.
    unfold complete, InputStreamMessageHandler_sent, InputStreamMessageHandler_write,
      conn_Write; cbn.
    destruct err; cbn; [exact HW|].
    destruct tc as [c|]; cbn; [|auto].
    intros Hp. apply closed_snoc_mono. now apply HW.
  - unfold Waiting in *; cbn [finish plugin world pump handler lifecycle].
    intros Hp. specialize (HW Hp). destruct (handler s); auto;
      (destruct (tcpConn (plugin s)) as [cn|]; [|exact I]);
      unfold execute_select; apply closed_stop_mono; now rewrite closed_app, HW.
  - unfold Waiting in *; cbn [finish plugin world pump handler lifecycle].
    intros Hp. congruence.
Qed.

(** Every state of a session satisfies [Waiting]. *)
Lemma reachable_Waiting (s : System) : reachable s -> Waiting s.
Proof.
  induction 1 as [|s s' Hreach IH Hstep]; [discriminate|].
  exact (step_Waiting s s' (reachable_Sound s Hreach) IH Hstep).
Qed.

Lemma reachable_steps (s s' : System) : reachable s -> steps s s' -> reachable s'.
Proof.
  intros Hreach Hsteps. induction Hsteps as [s|s s' s'' _ IH Hstep]; [exact Hreach|].
  apply reachable_step with s'; [now apply IH|exact Hstep].
Qed.

Lemma step_stuck (s s' : System) :
  stuck s -> step s s' -> stuck s' /\ sent (world s') = sent (world s).
Proof.
  intros (Hp & Hr & Hn & Hl) Hstep. destruct Hstep.
  - contradiction.
  - congruence.
  - split; [|apply deliver_sends_nothing].
    destruct s as [[tc dch pn pt rc] w pu h l]; cbn in *. subst pu rc h.
    unfold stuck, deliver, InputStreamMessageHandler, InputStreamMessageHandler_write,
      conn_Write, stop; cbn.
    destruct tc as [c|]; cbn; [|auto].
    destruct (N.eqb (PayloadType msg) Output); cbn; [auto|].
    destruct (N.eqb (PayloadType msg) Flag); cbn; [|auto].
    destruct (N.eqb (getFlag (Payload msg)) DisconnectToPort); cbn; auto.
  - congruence.
  - congruence.
  - split; [|apply finish_sends_nothing].
    unfold stuck; cbn. repeat split; auto. discriminate.
  - congruence.
Qed.

(** X17: the handler clears [reconnectToPort] only after the pump has taken
    the result of the dial.  When the pump, reading again under local port
    forwarding, meets a read error before the handler has done so, the pump
    sets the flag and waits, and the handler then clears the flag the pump
    has set: the pump waits for a reconnection that is no longer pending. *)
Theorem reconnect_request_lost (s : System) (msg : AgentMessage) (c : Conn)
    (r : ReadResult) (snd wr : option error) (err : error) :
  handler s = Sent None msg ->
  pump s = Reading ->
  lifecycle s <> Idle ->
  portType (plugin s) = LocalPortForwarding ->
  tcpConn (plugin s) = Some c ->
  conn_Read c r (world s) = ReadError err ->
  let s1 := pumpTurn r snd s in
  let s2 := fst (complete None msg wr s1) in
  reconnectToPort (plugin s1) = true
  /\ pump s1 = Receiving
  /\ (alive s -> step s s1 /\ step s1 s2)
  /\ stuck s2
  /\ tcpConn (plugin s2) = Some c
  /\ closed c (world s2) = true.
Proof.
  intros Hh Hp Hl Htype Hc Hread s1 s2.
  assert (H1 : s1 = mkSystem (set_reconnectToPort true (plugin s)) (world s ++ [ConnClose c])
                      Receiving (handler s) (lifecycle s)).
  { subst s1. unfold pumpTurn, writePump, handleTCPReadError, handlePortError, stop.
    rewrite Hc, Hread, Htype. reflexivity. }
  assert (H2 : s2 = mkSystem (set_reconnectToPort false (plugin s))
                      (world s ++ [ConnClose c] ++ [ConnWrite c (Payload msg)])
                      Receiving NoCall (lifecycle s)).
  { subst s2. rewrite H1.
    unfold complete, InputStreamMessageHandler_sent, InputStreamMessageHandler_write,
      conn_Write.
    cbn. rewrite Hc. cbn. now rewrite <- app_assoc. }
  split; [now rewrite H1|]. split; [now rewrite H1|]. split.
  { intros Halive. split.
    - now apply step_pump.
    - apply step_complete.
      + unfold alive in *. now rewrite H1.
      + now rewrite H1. }
  rewrite H2. split.
  { unfold stuck; cbn. auto. }
  split; [exact Hc|].
  cbn [world]. rewrite app_assoc. apply closed_snoc_mono. apply closed_ConnClose.
Qed.

Lemma reachable_wedged : reachable Scenarios.wedged.
Proof.
  apply (reachable_steps Examples.running); [exact reachable_running|].
  exact steps_running_wedged.
Qed.

Lemma reconnect_request_lost_witness : stuck Scenarios.wedged.
Proof.
  apply (reconnect_request_lost Scenarios.resumed Examples.dataMsg 1
           (ReadError (errors_New "connection reset by peer")) None None
           (errors_New "connection reset by peer"));
    [reflexivity | reflexivity | discriminate | reflexivity | reflexivity | reflexivity].
Defined.

(** X18: a pump that waits while no reconnection is pending waits for good.
    Whatever happens next in the session, the pump reads no more and hands
    nothing to the data channel, no data message makes the handler dial, and
    every data message is written to the closed connection and comes back
    with its error. *)
Theorem stuck_for_good (s s' : System) :
  reachable s ->
  stuck s ->
  steps s s' ->
  stuck s'
  /\ sent (world s') = sent (world s)
  /\ forall (msg : AgentMessage) (dial : DialResult) (wr : option error),
      PayloadType msg = Output ->
      match tcpConn (plugin s') with
      | Some c =>
          deliver msg dial wr s'
          = (mkSystem (plugin s') (world s' ++ [ConnWrite c (Payload msg)]) Receiving
               NoCall (lifecycle s'),
             Returned (Some ErrNetClosing))
      | None => deliver msg dial wr s' = (s', Returned None)
      end.
Proof.
  intros Hreach Hstuck Hsteps.
  assert (Hs' : stuck s' /\ sent (world s') = sent (world s)).
  { induction Hsteps as [s|s s' s'' _ IH Hstep]; [auto|].
    destruct (IH Hreach Hstuck) as [Hst Hsent].
    destruct (step_stuck s' s'' Hst Hstep) as [Hst' Hsent'].
    split; [exact Hst'|congruence]. }
  destruct Hs' as [Hst Hsent]. split; [exact Hst|]. split; [exact Hsent|].
  intros msg dial wr Hout.
  pose proof (reachable_Waiting s' (reachable_steps s s' Hreach Hsteps)) as HW.
  destruct Hst as (Hp & Hr & Hn & Hl).
  unfold Waiting in HW. specialize (HW Hp). rewrite Hn in HW.
  destruct s' as [[tc dch pn pt rc] w pu h l]; cbn in *. subst pu rc h.
  unfold deliver, InputStreamMessageHandler, InputStreamMessageHandler_write, conn_Write.
  cbn. destruct tc as [c|]; [|reflexivity].
  rewrite Hout. cbn. unfold closed. now rewrite HW.
Qed.

Lemma stuck_for_good_witness :
  stuck (finish cancelled Scenarios.wedged)
  /\ sent (world (finish cancelled Scenarios.wedged)) = sent (world Scenarios.wedged)
  /\ forall (msg : AgentMessage) (dial : DialResult) (wr : option error),
      PayloadType msg = Output ->
      match tcpConn (plugin (finish cancelled Scenarios.wedged)) with
      | Some c =>
          deliver msg dial wr (finish cancelled Scenarios.wedged)
          = (mkSystem (plugin (finish cancelled Scenarios.wedged))
               (world (finish cancelled Scenarios.wedged) ++ [ConnWrite c (Payload msg)])
               Receiving NoCall (lifecycle (finish cancelled Scenarios.wedged)),
             Returned (Some ErrNetClosing))
      | None =>
          deliver msg dial wr (finish cancelled Scenarios.wedged)
          = (finish cancelled Scenarios.wedged, Returned None)
      end.
Proof.
  apply (stuck_for_good Scenarios.wedged (finish cancelled Scenarios.wedged)).
  - exact reachable_wedged.
  - unfold stuck. repeat split. discriminate.
  - apply steps_step with Scenarios.wedged; [apply steps_refl|].
    now apply step_cancelled.
Defined.

(** ** A handle that is nil *)

Lemma step_nil_handle (s s' : System) :
  lifecycle s <> Idle ->
  tcpConn (plugin s) = None ->
  step s s' ->
  lifecycle s' <> Idle
  /\ tcpConn (plugin s') = None
  /\ filter dials (world s') = filter dials (world s).
Proof.
  intros Hl Hc Hstep. destruct Hstep.
  - contradiction.
  - unfold pumpTurn, writePump. rewrite Hc. cbn. auto.
  - unfold deliver, InputStreamMessageHandler. rewrite Hc. cbn. auto.
  - cbn. auto.
  - unfold complete, InputStreamMessageHandler_sent, InputStreamMessageHandler_write.
    destruct err; [cbn; auto|]. cbn. rewrite Hc. cbn. auto.
  - unfold finish, execute_select, stop; cbn. rewrite Hc.
    rewrite filter_app. cbn. rewrite app_nil_r. repeat split; auto. discriminate.
  - unfold finish, execute_select, stop; cbn. rewrite Hc.
    destruct (Z.eqb exitCode 1); rewrite filter_app; cbn; rewrite app_nil_r;
      (repeat split; auto; discriminate).
Qed.

(** X19: once [Execute] has been called and the handle is nil, as it is after
    a dial that failed, it stays nil for the rest of the session: no message
    is written, every message is dropped with nil returned, and nothing is
    dialled again. *)
Theorem nil_handle_is_final (s s' : System) :
  lifecycle s <> Idle ->
  tcpConn (plugin s) = None ->
  steps s s' ->
  tcpConn (plugin s') = None
  /\ filter dials (world s') = filter dials (world s)
  /\ forall (msg : AgentMessage) (dial : DialResult) (wr : option error),
      InputStreamMessageHandler msg dial wr (plugin s') (world s')
      = (plugin s', world s', Returned None).
Proof.
  intros Hl Hc Hsteps.
  assert (H : lifecycle s' <> Idle /\ tcpConn (plugin s') = None
              /\ filter dials (world s') = filter dials (world s)).
  { induction Hsteps as [s|s s' s'' _ IH Hstep]; [auto|].
    destruct (IH Hl Hc) as (Hl' & Hc' & Hd').
    destruct (step_nil_handle s' s'' Hl' Hc' Hstep) as (Hl'' & Hc'' & Hd'').
    repeat split; congruence. }
  destruct H as (_ & Hc' & Hd'). split; [exact Hc'|]. split; [exact Hd'|].
  intros msg dial wr. unfold InputStreamMessageHandler. now rewrite Hc'.
Qed.

Lemma nil_handle_is_final_witness :
  tcpConn (plugin (finish (done ErrorExitCode) Scenarios.gaveUp)) = None
  /\ filter dials (world (finish (done ErrorExitCode) Scenarios.gaveUp))
     = filter dials (world Scenarios.gaveUp)
  /\ forall (msg : AgentMessage) (dial : DialResult) (wr : option error),
      InputStreamMessageHandler msg dial wr
        (plugin (finish (done ErrorExitCode) Scenarios.gaveUp))
        (world (finish (done ErrorExitCode) Scenarios.gaveUp))
      = (plugin (finish (done ErrorExitCode) Scenarios.gaveUp),
         world (finish (done ErrorExitCode) Scenarios.gaveUp), Returned None).
Proof.
  apply (nil_handle_is_final Scenarios.gaveUp (finish (done ErrorExitCode) Scenarios.gaveUp)).
  - discriminate.
  - reflexivity.
  - apply steps_step with Scenarios.gaveUp; [apply steps_refl|].
    apply step_done; reflexivity.
Defined.

(** ** The flag DisconnectToPort and the pump *)

(** X20: under local port forwarding the flag DisconnectToPort starts a
    reconnection through the pump: the handler closes the connection, the
    next read of the pump fails whatever the peer does, the pump closes the
    connection a second time, sets [reconnectToPort] and waits, and the next
    data message makes the handler dial. *)
Theorem DisconnectToPort_then_reconnect (s : System) (c c' : Conn) (msg msg' : AgentMessage)
    (dial : DialResult) (wr wr' snd : option error) (r : ReadResult) :
  tcpConn (plugin s) = Some c ->
  portType (plugin s) = LocalPortForwarding ->
  handler s = NoCall ->
  pump s = Reading ->
  alive s ->
  PayloadType msg = Flag ->
  getFlag (Payload msg) = DisconnectToPort ->
  PayloadType msg' = Output ->
  let s1 := fst (deliver msg dial wr s) in
  let s2 := pumpTurn r snd s1 in
  let s3 := fst (deliver msg' (Connected c') wr' s2) in
  step s s1 /\ step s1 s2 /\ step s2 s3
  /\ s1 = mkSystem (plugin s) (world s ++ [ConnClose c]) (pump s) NoCall (lifecycle s)
  /\ s2 = mkSystem (set_reconnectToPort true (plugin s))
            (world s ++ [ConnClose c; ConnClose c]) Receiving NoCall (lifecycle s)
  /\ s3 = mkSystem (set_tcpConn (Some c') (set_reconnectToPort true (plugin s)))
            (world s ++ [ConnClose c; ConnClose c;
                         DialCall "tcp" ("localhost:" ++ portNumber (plugin s))%string])
            Receiving (Sending None msg') (lifecycle s).
Proof.
  intros Hc Htype Hn Hp Halive Hflag Hdis Hout s1 s2 s3.
  assert (H1 : s1 = mkSystem (plugin s) (world s ++ [ConnClose c]) (pump s) NoCall
                      (lifecycle s)).
  { subst s1. unfold deliver, InputStreamMessageHandler, stop.
    rewrite Hc, Hflag, Hdis. reflexivity. }
  assert (H2 : s2 = mkSystem (set_reconnectToPort true (plugin s))
                      (world s ++ [ConnClose c; ConnClose c]) Receiving NoCall
                      (lifecycle s)).
  { subst s2. rewrite H1.
    unfold pumpTurn, writePump, conn_Read, handleTCPReadError, handlePortError, stop.
    cbn [plugin world handler lifecycle]. rewrite Hc, closed_ConnClose, Htype.
    cbn. now rewrite <- app_assoc. }
  split; [now apply step_deliver|]. split.
  { apply step_pump; rewrite H1; [exact Halive|exact Hp]. }
  split.
  { apply step_deliver; rewrite H2; [exact Halive|reflexivity]. }
  split; [exact H1|]. split; [exact H2|].
  subst s3. rewrite H2.
  unfold deliver, InputStreamMessageHandler, startTCPConn.
  cbn. rewrite Hc, Hout. cbn. now rewrite <- app_assoc.
Qed.

Lemma DisconnectToPort_then_reconnect_witness :
  pumpTurn (ReadBytes [x61]) None Scenarios.disconnected
  = mkSystem (set_reconnectToPort true (plugin Examples.running))
      (world Examples.running ++ [ConnClose 0; ConnClose 0]) Receiving NoCall
      (lifecycle Examples.running).
Proof.
  apply (DisconnectToPort_then_reconnect Examples.running 0 1 Examples.disconnectMsg
           Examples.dataMsg (Connected 1) None None None (ReadBytes [x61]));
    first [reflexivity | exact I].
Defined.

(** X21: under every other type the flag DisconnectToPort ends the session as
    Failed: the next read of the pump fails with the error of a closed
    connection, which is not the end of the stream, and the pump returns the
    error exit code. *)
Theorem DisconnectToPort_fails_service (s : System) (c : Conn) (msg : AgentMessage)
    (dial : DialResult) (wr snd : option error) (r : ReadResult) :
  tcpConn (plugin s) = Some c ->
  portType (plugin s) <> LocalPortForwarding ->
  handler s = NoCall ->
  pump s = Reading ->
  alive s ->
  PayloadType msg = Flag ->
  getFlag (Payload msg) = DisconnectToPort ->
  let s1 := fst (deliver msg dial wr s) in
  let s2 := pumpTurn r snd s1 in
  step s s1 /\ step s1 s2
  /\ s2 = mkSystem (plugin s) (world s ++ [ConnClose c]) (Exited ErrorExitCode) NoCall
         (lifecycle s)
  /\ status_of (world (finish (done ErrorExitCode) s2)) = Some ResultStatusFailed.
Proof.
  intros Hc Htype Hn Hp Halive Hflag Hdis s1 s2.
  assert (H1 : s1 = mkSystem (plugin s) (world s ++ [ConnClose c]) (pump s) NoCall
                      (lifecycle s)).
  { subst s1. unfold deliver, InputStreamMessageHandler, stop.
    rewrite Hc, Hflag, Hdis. reflexivity. }
  assert (H2 : s2 = mkSystem (plugin s) (world s ++ [ConnClose c]) (Exited ErrorExitCode)
                      NoCall (lifecycle s)).
  { subst s2. rewrite H1.
    unfold pumpTurn, writePump, conn_Read, handleTCPReadError.
    cbn [plugin world handler lifecycle]. rewrite Hc, closed_ConnClose.
    destruct (String.eqb_spec (portType (plugin s)) LocalPortForwarding);
      [contradiction|reflexivity]. }
  split; [now apply step_deliver|]. split.
  { apply step_pump; rewrite H1; [exact Halive|exact Hp]. }
  split; [exact H2|]. rewrite H2.
  unfold finish, execute_select; cbn [world plugin]. rewrite status_of_stop.
  change (Z.eqb ErrorExitCode 1) with true. cbn iota. now rewrite status_of_app.
Qed.

Lemma DisconnectToPort_fails_service_witness :
  pumpTurn (ReadBytes [x61]) None Scenarios.disconnectedService
  = mkSystem (plugin Examples.serving) (world Examples.serving ++ [ConnClose 0])
      (Exited ErrorExitCode) NoCall (lifecycle Examples.serving).
Proof.
  apply (DisconnectToPort_fails_service Examples.serving 0 Examples.disconnectMsg
           (Connected 1) None None (ReadBytes [x61]));
    first [reflexivity | discriminate | exact I].
Defined.

(** ** After [Execute] has returned *)

Lemma lifecycle_pumpTurn (r : ReadResult) (snd : option error) (s : System) :
  lifecycle (pumpTurn r snd s) = lifecycle s.
Proof.
  unfold pumpTurn. now destruct (writePump r snd (plugin s) (world s)) as [[p w] st].
Qed.

Lemma lifecycle_deliver (msg : AgentMessage) (dial : DialResult) (wr : option error)
    (s : System) :
  lifecycle (fst (deliver msg dial wr s)) = lifecycle s.
Proof.
  unfold deliver.
  now destruct (InputStreamMessageHandler msg dial wr (plugin s) (world s)) as [[p w] r].
Qed.

Lemma lifecycle_complete (err : option error) (msg : AgentMessage) (wr : option error)
    (s : System) :
  lifecycle (fst (complete err msg wr s)) = lifecycle s.
Proof.
  unfold complete.
  now destruct (InputStreamMessageHandler_sent err msg wr (plugin s) (world s))
    as [[p w] r].
Qed.

Lemma step_keeps_Stopped (s s' : System) :
  lifecycle s = Stopped -> step s s' -> lifecycle s' = Stopped.
Proof.
  intros Hl Hstep.
  destruct Hstep;
    rewrite ?lifecycle_pumpTurn, ?lifecycle_deliver, ?lifecycle_complete;
    try assumption; congruence.
Qed.

Lemma steps_keep_Stopped (s s' : System) :
  lifecycle s = Stopped -> steps s s' -> lifecycle s' = Stopped.
Proof.
  intros Hl Hsteps. induction Hsteps as [s|s s' s'' _ IH Hstep]; [exact Hl|].
  exact (step_keeps_Stopped s' s'' (IH Hl) Hstep).
Qed.

(** X22: the cleanup of [execute] runs once: when [Execute] has returned
    while a reconnection is pending, the next data message still makes the
    handler dial, the pump reads again from the new connection, and that
    connection is open although the session has ended. *)
Theorem connection_after_return (s : System) (msg : AgentMessage) (c : Conn)
    (wr : option error) :
  reachable s ->
  lifecycle s = Stopped ->
  handler s = NoCall ->
  reconnectToPort (plugin s) = true ->
  tcpConn (plugin s) <> None ->
  PayloadType msg = Output ->
  closed c (world s) = false ->
  let s1 := fst (deliver msg (Connected c) wr s) in
  let s2 := rendezvous None msg s1 in
  let s3 := fst (complete None msg wr s2) in
  steps s s3
  /\ lifecycle s3 = Stopped
  /\ tcpConn (plugin s3) = Some c
  /\ closed c (world s3) = false
  /\ pump s3 = Reading
  /\ forall s4, steps s3 s4 -> lifecycle s4 = Stopped.
Proof.
  intros Hreach Hl Hn Hr Hc Hout Hopen s1 s2 s3.
  destruct (reconnect_pending_pump_receives s Hreach Hn Hr Hc) as [Halive Hpump].
  assert (Hd : deliver msg (Connected c) wr s
               = (mkSystem (set_tcpConn (Some c) (plugin s))
                    (world s ++ [DialCall "tcp" ("localhost:" ++ portNumber (plugin s))%string])
                    (pump s) (Sending None msg) (lifecycle s), BlockedOnSend None)).
  { now rewrite deliver_reconnect. }
  assert (Hs1 : step s s1) by now apply step_deliver.
  assert (Hs2 : step s1 s2).
  { subst s2 s1. rewrite Hd. apply step_rendezvous; [exact Halive|reflexivity|exact Hpump]. }
  assert (Hs3 : step s2 s3).
  { subst s3 s2 s1. rewrite Hd. apply step_complete; [exact Halive|reflexivity]. }
  split.
  { apply steps_step with s2; [|exact Hs3]. apply steps_step with s1; [|exact Hs2].
    apply steps_step with s; [apply steps_refl|exact Hs1]. }
  assert (H3 : s3 = mkSystem (set_reconnectToPort false (set_tcpConn (Some c) (plugin s)))
                      ((world s ++ [DialCall "tcp" ("localhost:" ++ portNumber (plugin s))%string])
                         ++ [ConnWrite c (Payload msg)])
                      Reading NoCall (lifecycle s)).
  { subst s3 s2 s1. rewrite Hd. reflexivity. }
  rewrite H3. cbn [lifecycle plugin world pump].
  split; [exact Hl|]. split; [reflexivity|]. split.
  { rewrite !closed_app, Hopen. reflexivity. }
  split; [reflexivity|].
  intros s4 Hsteps. apply (steps_keep_Stopped _ s4) in Hsteps; [exact Hsteps|exact Hl].
Qed.

Lemma connection_after_return_witness :
  tcpConn (plugin (fst (complete None Examples.dataMsg None
                          (rendezvous None Examples.dataMsg
                             (fst (deliver Examples.dataMsg (Connected 1) None
                                     Scenarios.cancelledWhileLost))))))
  = Some 1.
Proof.
  apply (connection_after_return Scenarios.cancelledWhileLost Examples.dataMsg 1 None);
    try reflexivity.
  - apply reachable_step with Examples.lost; [exact reachable_lost|].
    now apply step_cancelled.
  - discriminate.
Defined.
